(** * Dashboard de atendimentos: the load / filter / aggregate pipeline

    A shallow embedding of [dashboard_consolidado.py].  The script reads one
    semicolon-separated CSV with pandas, normalises two text columns, offers
    four multiselect filters, and renders a summary, three aggregations and a
    detail table of the filtered rows.

    The pandas and Streamlit calls are modelled by what they compute on the
    values the script hands them:
    - a column of the frame is the list of its cells, a frame is its header
      and its list of rows;
    - [int64] columns are [Z] and [Series.sum] wraps around at 64 bits;
    - a missing text cell is [NaN], a missing date is [NaT] (both [None]);
    - text is a [string] of bytes; [strip] and [upper] are modelled on the
      ASCII range;
    - an exception is an explicit result, a Streamlit call is an element
      appended to the rendered page. *)

From Stdlib Require Import ZArith List String Ascii Bool Lia.
From Stdlib Require Import Sorting.Sorted Sorting.Permutation.
From Stdlib Require Import Structures.OrderedTypeEx.
From Stdlib Require Import Numbers.DecimalString.
Import ListNotations.

Local Open Scope string_scope.
Local Open Scope list_scope.
Local Open Scope Z_scope.

(* ================================================================= *)
(** ** Exceptions *)

Inductive Excecao :=
| FileNotFoundError
| KeyError (coluna : string)
| DateParseError
| AttributeError
| TypeError
| ErroLeitura (motivo : string).

Inductive Resultado (A : Type) :=
| Ok (a : A)
| Levanta (e : Excecao).
Arguments Ok {A} a.
Arguments Levanta {A} e.

Definition ligar {A B} (r : Resultado A) (k : A -> Resultado B) : Resultado B :=
  match r with
  | Ok a => k a
  | Levanta e => Levanta e
  end.

Notation "x <- r ;; k" := (ligar r (fun x => k))
  (at level 61, r at next level, right associativity).

(* ================================================================= *)
(** ** 64-bit integers *)

Definition wrap64 (z : Z) : Z := (z + 2 ^ 63) mod 2 ^ 64 - 2 ^ 63.

(** [Series.sum()] of an [int64] column: left to right, in [int64]. *)
Definition Series_sum (l : list Z) : Z :=
  fold_left (fun acc q => wrap64 (acc + q)) l 0.

(* ================================================================= *)
(** ** Ordered keys

    [groupby] and [sorted] order their keys: integers by value, text by
    code point. *)

Class Chave (K : Type) := {
  comparar : K -> K -> comparison;
  comparar_eq : forall a b, comparar a b = Eq <-> a = b;
  comparar_antisym : forall a b, comparar b a = CompOpp (comparar a b);
  comparar_trans : forall a b c,
      comparar a b = Lt -> comparar b c = Lt -> comparar a c = Lt
}.

Definition menor {K} `{Chave K} (a b : K) : Prop := comparar a b = Lt.

#[export] Instance Chave_Z : Chave Z :=
  {| comparar := Z.compare;
     comparar_eq := Z.compare_eq_iff;
     comparar_antisym := fun a b => Z.compare_antisym a b;
     comparar_trans := Z.lt_trans |}.

#[export] Instance Chave_string : Chave string :=
  {| comparar := String.compare;
     comparar_eq := String_as_OT.cmp_eq;
     comparar_antisym := fun a b => String.compare_antisym b a;
     comparar_trans := fun a b c Hab Hbc =>
       proj2 (String_as_OT.cmp_lt a c)
         (String_as_OT.lt_trans a b c
            (proj1 (String_as_OT.cmp_lt a b) Hab)
            (proj1 (String_as_OT.cmp_lt b c) Hbc)) |}.

(* ================================================================= *)
(** ** Text normalisation: [str.strip] and [str.upper]

    Text is a string of bytes.  On text within the ASCII range [strip] and
    [upper] below are Python's [str.strip] and [str.upper]; outside it
    Python also strips Unicode white space and maps letters beyond a-z,
    which these do not (see [ascii_puro]). *)

(** The ASCII characters for which Python's [str.isspace] holds. *)
Definition isspace (c : ascii) : bool :=
  let n := nat_of_ascii c in
  ((9 <=? n) && (n <=? 13) || (28 <=? n) && (n <=? 32))%nat.

Fixpoint lstrip (s : string) : string :=
  match s with
  | String c s' => if isspace c then lstrip s' else s
  | EmptyString => EmptyString
  end.

Fixpoint rstrip (s : string) : string :=
  match s with
  | EmptyString => EmptyString
  | String c s' =>
      match rstrip s' with
      | EmptyString => if isspace c then EmptyString else String c EmptyString
      | t => String c t
      end
  end.

Definition strip (s : string) : string := rstrip (lstrip s).

Definition upper_ascii (c : ascii) : ascii :=
  let n := nat_of_ascii c in
  if ((97 <=? n) && (n <=? 122))%nat then ascii_of_nat (n - 32) else c.

Fixpoint upper (s : string) : string :=
  match s with
  | EmptyString => EmptyString
  | String c s' => String (upper_ascii c) (upper s')
  end.

(** [str(z)] for an integer cell. *)
Definition str_int (z : Z) : string := NilZero.string_of_int (Z.to_int z).

(* ================================================================= *)
(** ** The frame as [pd.read_csv] returns it *)

(** A cell of a text column as parsed from the file. *)
Inductive Celula :=
| Texto (s : string)
| Inteiro (z : Z)
| Ausente.

(** A cell of the [Data] column, by what [pd.to_datetime] makes of it:
    a timestamp, [NaT] for an empty cell, or no date at all. *)
Inductive CelulaData :=
| DataLida (t : Z)
| DataVazia
| DataIlegivel.

Record LinhaBruta := {
  bData : CelulaData;
  bAno : Z;
  bMes : Z;
  bCliente : Celula;
  bProcedimento : Celula;
  bQuantidade : Z
}.

(** The header names the columns the file really has; a field of a row whose
    column is absent from the header is never read. *)
Record QuadroBruto := {
  qColunas : list string;
  qLinhas : list LinhaBruta
}.

Inductive Leitura :=
| NaoEncontrado
| Ilegivel (motivo : string)
| Lido (q : QuadroBruto).

Definition SistemaArquivos := string -> Leitura.

(** The frame after load. *)
Record Linha := {
  Data : option Z;
  Ano : Z;
  Mes : Z;
  Cliente : option string;
  Procedimento : string;
  Quantidade : Z
}.

Record DataFrame := {
  colunas : list string;
  linhas : list Linha
}.

Definition tem_coluna (nome : string) (cols : list string) : bool :=
  existsb (String.eqb nome) cols.

(** [df[nome]]: [KeyError] when the header has no such column. *)
Definition getitem {A} (cols : list string) (nome : string) (col : list A)
  : Resultado (list A) :=
  if tem_coluna nome cols then Ok col else Levanta (KeyError nome).

Definition read_csv (l : Leitura) : Resultado QuadroBruto :=
  match l with
  | NaoEncontrado => Levanta FileNotFoundError
  | Ilegivel m => Levanta (ErroLeitura m)
  | Lido q => Ok q
  end.

(** [pd.to_datetime(col)]: raises on the first cell it cannot parse. *)
Fixpoint to_datetime (col : list CelulaData) : Resultado (list (option Z)) :=
  match col with
  | [] => Ok []
  | DataLida t :: col' => ds <- to_datetime col' ;; Ok (Some t :: ds)
  | DataVazia :: col' => ds <- to_datetime col' ;; Ok (None :: ds)
  | DataIlegivel :: _ => Levanta DateParseError
  end.

(** [col.astype(str)], cell by cell, as pandas writes the cells of an
    [object] or [int64] column.  (A column of numbers and blanks with no
    text is [float64] in pandas, which writes its numbers with a decimal
    point; see [coluna_float].) *)
Definition astype_str (c : Celula) : string :=
  match c with
  | Texto s => s
  | Inteiro z => str_int z
  | Ausente => "nan"
  end.

Definition eh_texto (c : Celula) : bool :=
  match c with Texto _ => true | _ => false end.

(** The [.str] accessor exists on [object] columns only: a column read from
    the file is [object] when it is empty or holds some text, and numeric
    otherwise. *)
Definition acessor_str (col : list Celula) : Resultado (list Celula) :=
  match col with
  | [] => Ok []
  | _ => if existsb eh_texto col then Ok col else Levanta AttributeError
  end.

(** [.str.strip()] and [.str.upper()]: a cell that is not text becomes
    [NaN]. *)
Definition str_strip (c : Celula) : option string :=
  match c with
  | Texto s => Some (strip s)
  | _ => None
  end.

Definition str_upper (c : option string) : option string :=
  option_map upper c.

Fixpoint montar (brutas : list LinhaBruta) (datas : list (option Z))
    (procs : list string) (clis : list (option string)) : list Linha :=
  match brutas, datas, procs, clis with
  | b :: brutas', d :: datas', p :: procs', c :: clis' =>
      {| Data := d; Ano := bAno b; Mes := bMes b; Cliente := c;
         Procedimento := p; Quantidade := bQuantidade b |}
        :: montar brutas' datas' procs' clis'
  | _, _, _, _ => []
  end.

(** The body of the [try] of [carregar_dados_consolidados]. *)
Definition carregar_corpo (l : Leitura) : Resultado DataFrame :=
  q <- read_csv l ;;
  col_data <- getitem (qColunas q) "Data" (map bData (qLinhas q)) ;;
  datas <- to_datetime col_data ;;
  col_proc <- getitem (qColunas q) "Procedimento"
                (map bProcedimento (qLinhas q)) ;;
  let procs := map upper (map strip (map astype_str col_proc)) in
  col_cli <- getitem (qColunas q) "Cliente" (map bCliente (qLinhas q)) ;;
  cli_str <- acessor_str col_cli ;;
  let clis := map str_upper (map str_strip cli_str) in
  Ok {| colunas := qColunas q;
        linhas := montar (qLinhas q) datas procs clis |}.

(* ================================================================= *)
(** ** The rendered page *)

Inductive Mensagem :=
| MsgNaoEncontrado (caminho : string)
| MsgErroCSV (e : Excecao).

Definition carregar_dados_consolidados (fs : SistemaArquivos)
    (caminho_arquivo : string) : option DataFrame * list Mensagem :=
  match carregar_corpo (fs caminho_arquivo) with
  | Ok df => (Some df, [])
  | Levanta FileNotFoundError => (None, [MsgNaoEncontrado caminho_arquivo])
  | Levanta e => (None, [MsgErroCSV e])
  end.

Definition ARQUIVO_DADOS : string := "estatisticas_consolidadas_clinica.csv".

(* ================================================================= *)
(** ** Filter options: [sorted(col.unique())] *)

Section Listas.
Context {A : Type}.

(** [Series.unique()]: distinct values in order of first appearance. *)
Definition unique (eqb : A -> A -> bool) (col : list A) : list A :=
  fold_left (fun vistos x => if existsb (eqb x) vistos then vistos
                             else vistos ++ [x]) col [].

(** Stable insertion: [x] stood before every element of [l]; it goes
    behind exactly those that must come strictly before it. *)
Fixpoint inserir (antes : A -> A -> bool) (x : A) (l : list A) : list A :=
  match l with
  | [] => [x]
  | y :: l' => if antes y x then y :: inserir antes x l' else x :: l
  end.

Definition ordenar (antes : A -> A -> bool) (l : list A) : list A :=
  fold_right (inserir antes) [] l.

(** [Series.isin(valores)]: one boolean per cell. *)
Definition isin (eqb : A -> A -> bool) (col : list A) (valores : list A)
  : list bool :=
  map (fun x => existsb (eqb x) valores) col.

(** [df[mascara]]: the rows whose boolean is set, in frame order. *)
Fixpoint indexar (rows : list A) (mascara : list bool) : list A :=
  match rows, mascara with
  | r :: rows', b :: mascara' =>
      if b then r :: indexar rows' mascara' else indexar rows' mascara'
  | _, _ => []
  end.
End Listas.

(** [m1 & m2] on boolean columns. *)
Definition e_mascara (m1 m2 : list bool) : list bool :=
  map (fun p => fst p && snd p) (combine m1 m2).

Definition chave_ltb {K} `{Chave K} (a b : K) : bool :=
  match comparar a b with Lt => true | _ => false end.

Definition chave_gtb {K} `{Chave K} (a b : K) : bool :=
  match comparar a b with Gt => true | _ => false end.

Definition chave_eqb {K} `{Chave K} (a b : K) : bool :=
  match comparar a b with Eq => true | _ => false end.

(** [sorted(l)] and [sorted(l, reverse=True)] on mutually comparable
    values. *)
Definition sorted {K} `{Chave K} (l : list K) : list K := ordenar chave_ltb l.

Definition sorted_reverse {K} `{Chave K} (l : list K) : list K :=
  ordenar chave_gtb l.

Definition opt_eqb (a b : option string) : bool :=
  match a, b with
  | Some x, Some y => String.eqb x y
  | None, None => true
  | _, _ => false
  end.

Definition eh_nan (c : option string) : bool :=
  match c with None => true | Some _ => false end.

Definition opt_ltb (a b : option string) : bool :=
  match a, b with
  | Some x, Some y => chave_ltb x y
  | _, _ => false
  end.

(** [sorted] on the distinct values of the client column: comparing a [str]
    with the float [NaN] raises [TypeError], and a sort of a list that holds
    both compares some text with the [NaN]. *)
Definition sorted_clientes (l : list (option string))
  : Resultado (list (option string)) :=
  if existsb eh_nan l && existsb (fun c => negb (eh_nan c)) l
  then Levanta TypeError
  else Ok (ordenar opt_ltb l).

Record Opcoes := {
  anos_disponiveis : list Z;
  meses_disponiveis : list Z;
  procedimentos_disponiveis : list string;
  clientes_disponiveis : list (option string)
}.

(** What the four multiselect widgets return. *)
Record Selecao := {
  anos_selecionados : list Z;
  meses_selecionados : list Z;
  procedimentos_selecionados : list string;
  clientes_selecionados : list (option string)
}.

(** [default=..._disponiveis]: every option selected. *)
Definition selecao_padrao (ops : Opcoes) : Selecao :=
  {| anos_selecionados := anos_disponiveis ops;
     meses_selecionados := meses_disponiveis ops;
     procedimentos_selecionados := procedimentos_disponiveis ops;
     clientes_selecionados := clientes_disponiveis ops |}.

(* ================================================================= *)
(** ** The filter *)

Definition mascara (rows : list Linha) (sel : Selecao) : list bool :=
  e_mascara
    (e_mascara
       (e_mascara (isin Z.eqb (map Ano rows) (anos_selecionados sel))
                  (isin Z.eqb (map Mes rows) (meses_selecionados sel)))
       (isin String.eqb (map Procedimento rows)
             (procedimentos_selecionados sel)))
    (isin opt_eqb (map Cliente rows) (clientes_selecionados sel)).

Definition df_filtrado (rows : list Linha) (sel : Selecao) : list Linha :=
  indexar rows (mascara rows sel).

(** The test a row passes, cell by cell. *)
Definition selecionada (sel : Selecao) (r : Linha) : bool :=
  existsb (Z.eqb (Ano r)) (anos_selecionados sel)
  && existsb (Z.eqb (Mes r)) (meses_selecionados sel)
  && existsb (String.eqb (Procedimento r)) (procedimentos_selecionados sel)
  && existsb (opt_eqb (Cliente r)) (clientes_selecionados sel).

(* ================================================================= *)
(** ** Aggregations *)

Definition total_quantidade (v : list Linha) : Z :=
  Series_sum (map Quantidade v).

Definition num_registros (v : list Linha) : nat := List.length v.

(** The two orders on the rows of a grouped sum: larger sum first, smaller
    sum first. *)
Definition maior_soma {K} (y x : K * Z) : bool := snd x <? snd y.

Definition menor_soma {K} (y x : K * Z) : bool := snd y <? snd x.

Section GroupBy.
Context {K : Type} `{Chave K}.

Definition tem_chave (key : Linha -> option K) (k : K) (r : Linha) : bool :=
  match key r with
  | Some k' => chave_eqb k' k
  | None => false
  end.

Fixpoint chaves (key : Linha -> option K) (v : list Linha) : list K :=
  match v with
  | [] => []
  | r :: v' =>
      match key r with
      | Some k => k :: chaves key v'
      | None => chaves key v'
      end
  end.

(** [v.groupby(key)['Quantidade'].sum()]: rows without a key are dropped,
    the groups come in ascending key order, each with the [int64] sum of
    its rows. *)
Definition groupby_sum (key : Linha -> option K) (v : list Linha)
  : list (K * Z) :=
  map (fun k => (k, Series_sum (map Quantidade (filter (tem_chave key k) v))))
      (sorted (unique chave_eqb (chaves key v))).

(** [s.nlargest(n)], [keep='first']: descending by value, equal values in
    series order, cut after [n].  (When [n] reaches the length of the
    series pandas sorts all of it with its default sort instead: the same
    groups, all of them.) *)
Definition nlargest (n : nat) (s : list (K * Z)) : list (K * Z) :=
  firstn n (ordenar maior_soma s).

(** [t.sort_values('Quantidade')]: ascending by value.  (The order pandas
    leaves among equal values is not fixed; nothing below depends on it.) *)
Definition sort_values (t : list (K * Z)) : list (K * Z) :=
  ordenar menor_soma t.
End GroupBy.

Definition df_evolucao (v : list Linha) : list (Z * Z) :=
  groupby_sum Data v.

Definition df_top_proc (v : list Linha) : list (string * Z) :=
  nlargest 10 (groupby_sum (fun r => Some (Procedimento r)) v).

Definition df_cliente (v : list Linha) : list (string * Z) :=
  groupby_sum Cliente v.

(* ================================================================= *)
(** ** The script *)

(** What a run puts on the page, in call order. *)
Inductive Elemento :=
| Erro (m : Mensagem)                              (* st.error *)
| Titulo                                           (* st.title, st.markdown *)
| FiltroAnos (ops : list Z)                        (* st.sidebar.multiselect *)
| FiltroMeses (ops : list Z)
| FiltroProcedimentos (ops : list string)
| FiltroClientes (ops : list (option string))
| Aviso                                            (* st.warning *)
| Resumo (total : Z) (registros : nat)             (* the two st.metric *)
| GraficoEvolucao (pontos : list (Z * Z))          (* px.line *)
| GraficoTopProc (barras : list (string * Z))      (* px.bar *)
| GraficoCliente (fatias : list (string * Z))      (* px.pie *)
| Tabela (detalhe : list (Z * Z * option string * string * Z * option Z))
| Rodape.                                          (* st.sidebar.info *)

(** How a run ends: the last line was reached, [st.stop()] was called, or an
    exception was left uncaught. *)
Inductive Fim :=
| Completo
| Interrompido
| Falha (e : Excecao).

Definition Pagina := list Elemento.

Definition Script (A : Type) := Pagina -> Pagina * (A + Fim).

Definition retornar {A} (a : A) : Script A := fun pg => (pg, inl a).

Definition seguir {A B} (c : Script A) (k : A -> Script B) : Script B :=
  fun pg =>
    match c pg with
    | (pg', inl a) => k a pg'
    | (pg', inr f) => (pg', inr f)
    end.

Notation "x <~ c ;; k" := (seguir c (fun x => k))
  (at level 61, c at next level, right associativity).

Definition st (e : Elemento) : Script unit := fun pg => (pg ++ [e], inl tt).

Definition st_stop {A} : Script A := fun pg => (pg, inr Interrompido).

(** A pandas or Python call outside any [try]. *)
Definition chamar {A} (r : Resultado A) : Script A :=
  fun pg =>
    match r with
    | Ok a => (pg, inl a)
    | Levanta e => (pg, inr (Falha e))
    end.

Definition carregar (fs : SistemaArquivos) (caminho : string)
  : Script (option DataFrame) :=
  fun pg =>
    let (df, msgs) := carregar_dados_consolidados fs caminho in
    (pg ++ map Erro msgs, inl df).

Definition opcoes (df : DataFrame) : Script Opcoes :=
  anos <~ chamar (col <- getitem (colunas df) "Ano" (map Ano (linhas df)) ;;
                  Ok (sorted_reverse (unique Z.eqb col))) ;;
  _ <~ st (FiltroAnos anos) ;;
  meses <~ chamar (col <- getitem (colunas df) "Mes" (map Mes (linhas df)) ;;
                   Ok (sorted (unique Z.eqb col))) ;;
  _ <~ st (FiltroMeses meses) ;;
  procs <~ chamar (col <- getitem (colunas df) "Procedimento"
                            (map Procedimento (linhas df)) ;;
                   Ok (sorted (unique String.eqb col))) ;;
  _ <~ st (FiltroProcedimentos procs) ;;
  clis <~ chamar (col <- getitem (colunas df) "Cliente"
                           (map Cliente (linhas df)) ;;
                  sorted_clientes (unique opt_eqb col)) ;;
  _ <~ st (FiltroClientes clis) ;;
  retornar {| anos_disponiveis := anos; meses_disponiveis := meses;
              procedimentos_disponiveis := procs;
              clientes_disponiveis := clis |}.

Definition detalhe (r : Linha) :=
  (Ano r, Mes r, Cliente r, Procedimento r, Quantidade r, Data r).

(** The main area: the warning alone for an empty view, else the summary,
    the three charts and the detail table. *)
Definition area_principal (cols : list string) (v : list Linha) : Script unit :=
  match v with
  | [] => st Aviso
  | _ =>
      qs <~ chamar (getitem cols "Quantidade" (map Quantidade v)) ;;
      _ <~ st (Resumo (Series_sum qs) (num_registros v)) ;;
      _ <~ st (GraficoEvolucao (df_evolucao v)) ;;
      _ <~ st (GraficoTopProc (sort_values (df_top_proc v))) ;;
      _ <~ st (GraficoCliente (df_cliente v)) ;;
      st (Tabela (map detalhe v))
  end.

(** [widgets] is the user at the four multiselect widgets: from the options
    shown to the values returned.  The first render returns the defaults,
    [selecao_padrao]. *)
Definition dashboard (fs : SistemaArquivos) (widgets : Opcoes -> Selecao)
  : Script unit :=
  df <~ carregar fs ARQUIVO_DADOS ;;
  match df with
  | None => st_stop
  | Some df =>
      _ <~ st Titulo ;;
      ops <~ opcoes df ;;
      _ <~ area_principal (colunas df)
             (df_filtrado (linhas df) (widgets ops)) ;;
      st Rodape
  end.

Definition executar (fs : SistemaArquivos) (widgets : Opcoes -> Selecao)
  : Pagina * Fim :=
  match dashboard fs widgets [] with
  | (pg, inl _) => (pg, Completo)
  | (pg, inr f) => (pg, f)
  end.

(* ================================================================= *)
(** ** Notions the statements use *)

(** Order-preserving sub-list. *)
Inductive Sublista {A} : list A -> list A -> Prop :=
| sub_vazia : Sublista [] []
| sub_salta x l1 l2 : Sublista l1 l2 -> Sublista l1 (x :: l2)
| sub_toma x l1 l2 : Sublista l1 l2 -> Sublista (x :: l1) (x :: l2).

(** The script keeps the loaded table and the view side by side. *)
Record Sessao := {
  s_df : list Linha;
  s_filtrado : list Linha
}.

(** Lines 78-83 as a step of the session: [df] is read, [df_filtrado] is
    written. *)
Definition passo_filtrar (sel : Selecao) (s : Sessao) : Sessao :=
  {| s_df := s_df s; s_filtrado := df_filtrado (s_df s) sel |}.

(** The order a stable sort leaves.  [antes] is the sort key, [P] what is
    known of the order of the input: [a] stands before [b] in the output
    when the key says so, or when the key does not tell them apart and [a]
    stood before [b] in the input. *)
Definition precede {A} (antes : A -> A -> bool) (P : A -> A -> Prop)
    (a b : A) : Prop :=
  antes a b = true \/ (antes b a = false /\ P a b).

(** The sum as an integer, before any wrap-around. *)
Definition soma (l : list Z) : Z := fold_right Z.add 0 l.

(** The group keys: the distinct keys of the view, ascending. *)
Definition grupos {K} `{Chave K} (key : Linha -> option K) (v : list Linha)
  : list K :=
  sorted (unique chave_eqb (chaves key v)).

(** What one row adds to the group of [k]. *)
Definition parcela {K} `{Chave K} (key : Linha -> option K) (k : K)
    (r : Linha) : Z :=
  if tem_chave key k r then Quantidade r else 0.


(** Larger sum first; among equal sums, smaller key first. *)
Definition ordem_top {K} `{Chave K} (a b : K * Z) : Prop :=
  snd b < snd a \/ (snd a = snd b /\ menor (fst a) (fst b)).

(** The procedure groups of a view, before the cut to ten. *)
Definition soma_por_procedimento (v : list Linha) : list (string * Z) :=
  groupby_sum (fun r => Some (Procedimento r)) v.

Definition data_ilegivel (c : CelulaData) : bool :=
  match c with DataIlegivel => true | _ => false end.

Definition cliente_nao_texto (col : list Celula) : bool :=
  match col with
  | [] => false
  | _ => negb (existsb eh_texto col)
  end.

(** The causes of a failed load, as the loader meets them: the file is not
    there or cannot be read as a table; the header lacks a column the loader
    reads (as it does when the file is not semicolon-separated); a date
    cannot be parsed; the client column is not text. *)
Definition carga_falha (l : Leitura) : bool :=
  match l with
  | NaoEncontrado => true
  | Ilegivel _ => true
  | Lido q =>
      negb (tem_coluna "Data" (qColunas q))
      || existsb data_ilegivel (map bData (qLinhas q))
      || negb (tem_coluna "Procedimento" (qColunas q))
      || negb (tem_coluna "Cliente" (qColunas q))
      || cliente_nao_texto (map bCliente (qLinhas q))
  end.

Definition eh_filtro (e : Elemento) : bool :=
  match e with
  | FiltroAnos _ | FiltroMeses _ | FiltroProcedimentos _ | FiltroClientes _ =>
      true
  | _ => false
  end.

Definition do_painel (e : Elemento) : bool :=
  match e with
  | Resumo _ _ | GraficoEvolucao _ | GraficoTopProc _ | GraficoCliente _
  | Tabela _ => true
  | _ => false
  end.

(** The page a view that is not empty puts in the main area. *)
Definition painel (v : list Linha) : list Elemento :=
  [Resumo (total_quantidade v) (num_registros v);
   GraficoEvolucao (df_evolucao v);
   GraficoTopProc (sort_values (df_top_proc v));
   GraficoCliente (df_cliente v);
   Tabela (map detalhe v)].

(** The four ways a run can go. *)
Inductive Corrida (fs : SistemaArquivos) (widgets : Opcoes -> Selecao)
  : Pagina * Fim -> Prop :=
| corrida_sem_tabela m :
    carregar_dados_consolidados fs ARQUIVO_DADOS = (None, [m]) ->
    Corrida fs widgets ([Erro m], Interrompido)
| corrida_excecao df filtros e :
    carregar_corpo (fs ARQUIVO_DADOS) = Ok df ->
    forallb eh_filtro filtros = true ->
    Corrida fs widgets (Titulo :: filtros, Falha e)
| corrida_aviso df filtros ops :
    carregar_corpo (fs ARQUIVO_DADOS) = Ok df ->
    forallb eh_filtro filtros = true ->
    sorted_clientes (unique opt_eqb (map Cliente (linhas df)))
    = Ok (clientes_disponiveis ops) ->
    df_filtrado (linhas df) (widgets ops) = [] ->
    Corrida fs widgets (Titulo :: filtros ++ [Aviso; Rodape], Completo)
| corrida_painel df filtros ops :
    carregar_corpo (fs ARQUIVO_DADOS) = Ok df ->
    forallb eh_filtro filtros = true ->
    sorted_clientes (unique opt_eqb (map Cliente (linhas df)))
    = Ok (clientes_disponiveis ops) ->
    df_filtrado (linhas df) (widgets ops) <> [] ->
    Corrida fs widgets
      (Titulo :: filtros ++ painel (df_filtrado (linhas df) (widgets ops))
              ++ [Rodape], Completo).

(** The quantities listed in a detail table. *)
Definition quantidades
    (det : list (Z * Z * option string * string * Z * option Z)) : list Z :=
  map (fun t => snd (fst t)) det.

(** What the loader makes of one row of the file, taken alone; a row whose
    date cannot be parsed has no image. *)
Definition linha_de (b : LinhaBruta) : option Linha :=
  match bData b with
  | DataIlegivel => None
  | d =>
      Some {| Data := match d with DataLida t => Some t | _ => None end;
              Ano := bAno b; Mes := bMes b;
              Cliente := str_upper (str_strip (bCliente b));
              Procedimento := upper (strip (astype_str (bProcedimento b)));
              Quantidade := bQuantidade b |}
  end.

Definition primeiro (s : string) : option ascii :=
  match s with
  | EmptyString => None
  | String c _ => Some c
  end.

Fixpoint ultimo (s : string) : option ascii :=
  match s with
  | EmptyString => None
  | String c EmptyString => Some c
  | String _ s' => ultimo s'
  end.

Definition eh_minuscula (c : ascii) : bool :=
  let n := nat_of_ascii c in ((97 <=? n) && (n <=? 122))%nat.

Fixpoint tem_minuscula (s : string) : bool :=
  match s with
  | EmptyString => false
  | String c s' => eh_minuscula c || tem_minuscula s'
  end.

(** A text in normal form: no white space at either end, no lower-case
    letter. *)
Definition normalizado (s : string) : Prop :=
  (forall c, primeiro s = Some c -> isspace c = false)
  /\ (forall c, ultimo s = Some c -> isspace c = false)
  /\ tem_minuscula s = false.

(** Every value selected in [s1] is selected in [s2]. *)
Definition contida (s1 s2 : Selecao) : Prop :=
  incl (anos_selecionados s1) (anos_selecionados s2)
  /\ incl (meses_selecionados s1) (meses_selecionados s2)
  /\ incl (procedimentos_selecionados s1) (procedimentos_selecionados s2)
  /\ incl (clientes_selecionados s1) (clientes_selecionados s2).

Definition tem_data (r : Linha) : bool :=
  match Data r with Some _ => true | None => false end.

(** A row that has a key: the rows [groupby] does not drop. *)
Definition com_chave {K} (key : Linha -> option K) (r : Linha) : bool :=
  match key r with Some _ => true | None => false end.



Fixpoint so_espacos (s : string) : bool :=
  match s with
  | EmptyString => true
  | String c s' => isspace c && so_espacos s'
  end.

Fixpoint ascii_puro (s : string) : bool :=
  match s with
  | EmptyString => true
  | String c s' => (nat_of_ascii c <? 128)%nat && ascii_puro s'
  end.

Definition celula_ascii (c : Celula) : bool :=
  match c with Texto s => ascii_puro s | _ => true end.

Definition eh_ausente (c : Celula) : bool :=
  match c with Ausente => true | _ => false end.

Definition eh_inteiro (c : Celula) : bool :=
  match c with Inteiro _ => true | _ => false end.

(** A column of numbers and blanks and no text: [float64] in pandas. *)
Definition coluna_float (col : list Celula) : bool :=
  negb (existsb eh_texto col) && existsb eh_ausente col
  && existsb eh_inteiro col.

(** The files on which the loader's conversions, as modelled cell by cell,
    are those of pandas and Python: the text of the procedure and client
    columns is ASCII, and the procedure column is not [float64]. *)
Definition arquivo_modelado (q : QuadroBruto) : bool :=
  forallb celula_ascii (map bProcedimento (qLinhas q))
  && forallb celula_ascii (map bCliente (qLinhas q))
  && negb (coluna_float (map bProcedimento (qLinhas q))).

(* ================================================================= *)
(** ** A worked table

    The two rows of the normalisation example and a third one of another
    year, client and procedure. *)

Definition cabecalho : list string :=
  ["Data"; "Ano"; "Mes"; "Cliente"; "Procedimento"; "Quantidade"].

Definition bruta1 : LinhaBruta :=
  {| bData := DataLida 20240105; bAno := 2024; bMes := 1;
     bCliente := Texto "convenio a"; bProcedimento := Texto " consulta ";
     bQuantidade := 3 |}.

Definition bruta2 : LinhaBruta :=
  {| bData := DataLida 20240106; bAno := 2024; bMes := 1;
     bCliente := Texto "CONVENIO A"; bProcedimento := Texto "CONSULTA";
     bQuantidade := 2 |}.

Definition bruta3 : LinhaBruta :=
  {| bData := DataLida 20240106; bAno := 2023; bMes := 2;
     bCliente := Texto "Particular"; bProcedimento := Texto "exame";
     bQuantidade := 7 |}.

Definition fs_exemplo : SistemaArquivos :=
  fun _ => Lido {| qColunas := cabecalho; qLinhas := [bruta1; bruta2; bruta3] |}.

Definition linha1 : Linha :=
  {| Data := Some 20240105; Ano := 2024; Mes := 1;
     Cliente := Some "CONVENIO A"; Procedimento := "CONSULTA";
     Quantidade := 3 |}.

Definition linha2 : Linha :=
  {| Data := Some 20240106; Ano := 2024; Mes := 1;
     Cliente := Some "CONVENIO A"; Procedimento := "CONSULTA";
     Quantidade := 2 |}.

Definition linha3 : Linha :=
  {| Data := Some 20240106; Ano := 2023; Mes := 2;
     Cliente := Some "PARTICULAR"; Procedimento := "EXAME";
     Quantidade := 7 |}.

Definition tabela_exemplo : list Linha := [linha1; linha2; linha3].

Definition sel_2024 : Selecao :=
  {| anos_selecionados := [2024]; meses_selecionados := [1; 2];
     procedimentos_selecionados := ["CONSULTA"; "EXAME"];
     clientes_selecionados := [Some "CONVENIO A"; Some "PARTICULAR"] |}.


(** Options the sidebar offers, but no row is of 2024 and of month 2. *)
Definition sel_2024_fev : Selecao :=
  {| anos_selecionados := [2024]; meses_selecionados := [2];
     procedimentos_selecionados := ["CONSULTA"; "EXAME"];
     clientes_selecionados := [Some "CONVENIO A"; Some "PARTICULAR"] |}.

Definition sel_tudo : Selecao :=
  {| anos_selecionados := [2024; 2023]; meses_selecionados := [1; 2];
     procedimentos_selecionados := ["CONSULTA"; "EXAME"];
     clientes_selecionados := [Some "CONVENIO A"; Some "PARTICULAR"] |}.

(** A file whose client and procedure columns hold the number 7. *)
Definition bruta_codigo : LinhaBruta :=
  {| bData := DataLida 20240105; bAno := 2024; bMes := 1;
     bCliente := Inteiro 7; bProcedimento := Inteiro 7; bQuantidade := 3 |}.

Definition fs_codigo : SistemaArquivos :=
  fun _ => Lido {| qColunas := cabecalho; qLinhas := [bruta_codigo] |}.

(** A file with a row whose client and procedure cells are empty. *)
Definition bruta_vazia : LinhaBruta :=
  {| bData := DataLida 20240106; bAno := 2023; bMes := 2;
     bCliente := Ausente; bProcedimento := Ausente; bQuantidade := 7 |}.

Definition fs_vazia : SistemaArquivos :=
  fun _ => Lido {| qColunas := cabecalho; qLinhas := [bruta1; bruta_vazia] |}.

(** The worked file without its [Ano] column. *)
Definition fs_sem_ano : SistemaArquivos :=
  fun _ => Lido {| qColunas := ["Data"; "Mes"; "Cliente"; "Procedimento";
                                "Quantidade"];
                   qLinhas := [bruta1; bruta2; bruta3] |}.

(** The worked file without its [Quantidade] column. *)
Definition cabecalho_sem_quantidade : list string :=
  ["Data"; "Ano"; "Mes"; "Cliente"; "Procedimento"].

Definition fs_sem_quantidade : SistemaArquivos :=
  fun _ => Lido {| qColunas := cabecalho_sem_quantidade;
                   qLinhas := [bruta1; bruta2; bruta3] |}.

Definition df_exemplo : DataFrame :=
  {| colunas := cabecalho; linhas := tabela_exemplo |}.

Definition ops_exemplo : Opcoes :=
  {| anos_disponiveis := [2024; 2023]; meses_disponiveis := [1; 2];
     procedimentos_disponiveis := ["CONSULTA"; "EXAME"];
     clientes_disponiveis := [Some "CONVENIO A"; Some "PARTICULAR"] |}.

Definition filtros_exemplo : list Elemento :=
  [FiltroAnos [2024; 2023]; FiltroMeses [1; 2];
   FiltroProcedimentos ["CONSULTA"; "EXAME"];
   FiltroClientes [Some "CONVENIO A"; Some "PARTICULAR"]].

Example carga_exemplo :
  carregar_dados_consolidados fs_exemplo ARQUIVO_DADOS
  = (Some {| colunas := cabecalho; linhas := tabela_exemplo |}, []).
Proof. reflexivity. Qed.

Example filtro_exemplo : df_filtrado tabela_exemplo sel_2024 = [linha1; linha2].
Proof. reflexivity. Qed.

Example cliente_exemplo :
  df_cliente [linha1; linha2] = [("CONVENIO A", 5)].
Proof. reflexivity. Qed.

(* ================================================================= *)
(** ** Membership tests *)

Lemma existsb_Z_In (x : Z) (l : list Z) :
  existsb (Z.eqb x) l = true <-> In x l.
Proof.
  rewrite existsb_exists. split.
  - intros [y [Hy Heq]]. apply Z.eqb_eq in Heq. now subst.
  - intros Hin. exists x. split; [assumption | apply Z.eqb_refl].
Qed.

Lemma existsb_string_In (x : string) (l : list string) :
  existsb (String.eqb x) l = true <-> In x l.
Proof.
  rewrite existsb_exists. split.
  - intros [y [Hy Heq]]. apply String.eqb_eq in Heq. now subst.
  - intros Hin. exists x. split; [assumption | apply String.eqb_refl].
Qed.

Lemma opt_eqb_eq (a b : option string) : opt_eqb a b = true <-> a = b.
Proof.
  destruct a as [x|], b as [y|]; simpl; split; intros Hab;
    try discriminate; try reflexivity.
  - apply String.eqb_eq in Hab. now subst.
  - injection Hab as ->. apply String.eqb_refl.
Qed.

Lemma existsb_opt_In (x : option string) (l : list (option string)) :
  existsb (opt_eqb x) l = true <-> In x l.
Proof.
  rewrite existsb_exists. split.
  - intros [y [Hy Heq]]. apply opt_eqb_eq in Heq. now subst.
  - intros Hin. exists x. split; [assumption | now apply opt_eqb_eq].
Qed.

Lemma selecionada_spec (sel : Selecao) (r : Linha) :
  selecionada sel r = true <->
  In (Ano r) (anos_selecionados sel)
  /\ In (Mes r) (meses_selecionados sel)
  /\ In (Procedimento r) (procedimentos_selecionados sel)
  /\ In (Cliente r) (clientes_selecionados sel).
Proof.
  unfold selecionada.
  rewrite !andb_true_iff, existsb_Z_In, existsb_Z_In, existsb_string_In,
    existsb_opt_In.
  tauto.
Qed.

(* ================================================================= *)
(** ** The mask is the row test, the indexing is a filter *)

Lemma e_mascara_map {A} (f g : A -> bool) (l : list A) :
  e_mascara (map f l) (map g l) = map (fun x => f x && g x) l.
Proof.
  unfold e_mascara.
  induction l as [|x l IH]; simpl; [reflexivity | now rewrite IH].
Qed.

Lemma isin_map {A B} (eqb : B -> B -> bool) (h : A -> B) (l : list A)
    (valores : list B) :
  isin eqb (map h l) valores = map (fun r => existsb (eqb (h r)) valores) l.
Proof. unfold isin. apply map_map. Qed.

Lemma mascara_selecionada (rows : list Linha) (sel : Selecao) :
  mascara rows sel = map (selecionada sel) rows.
Proof.
  unfold mascara. rewrite !isin_map, !e_mascara_map. reflexivity.
Qed.

Lemma indexar_map {A} (f : A -> bool) (l : list A) :
  indexar l (map f l) = filter f l.
Proof.
  induction l as [|x l IH]; simpl; [reflexivity|].
  rewrite IH. reflexivity.
Qed.

Lemma df_filtrado_filter (rows : list Linha) (sel : Selecao) :
  df_filtrado rows sel = filter (selecionada sel) rows.
Proof.
  unfold df_filtrado. rewrite mascara_selecionada. apply indexar_map.
Qed.

Lemma filter_nenhuma {A} (f : A -> bool) (l : list A) :
  (forall x, In x l -> f x = false) -> filter f l = [].
Proof.
  induction l as [|x l IH]; simpl; intros Hf; [reflexivity|].
  rewrite (Hf x (or_introl eq_refl)). apply IH. intros y Hy. apply Hf. now right.
Qed.

Lemma filter_todas {A} (f : A -> bool) (l : list A) :
  (forall x, In x l -> f x = true) -> filter f l = l.
Proof.
  induction l as [|x l IH]; simpl; intros Hf; [reflexivity|].
  rewrite (Hf x (or_introl eq_refl)). f_equal. apply IH.
  intros y Hy. apply Hf. now right.
Qed.

Lemma Sublista_filter {A} (f : A -> bool) (l : list A) :
  Sublista (filter f l) l.
Proof.
  induction l as [|x l IH]; simpl; [constructor|].
  destruct (f x); now constructor.
Qed.

Lemma filter_idem {A} (f : A -> bool) (l : list A) :
  filter f (filter f l) = filter f l.
Proof.
  apply filter_todas. intros x Hx. apply filter_In in Hx. tauto.
Qed.

(* ================================================================= *)
(** ** The filter engine *)

(** C1. A row is in the filtered result exactly when it is a row of the
    table whose year, month, procedure and client each belong to the
    selected values of that dimension; an empty selection in any one
    dimension leaves no row. *)
Theorem C1_filtro_conjuncao (rows : list Linha) (sel : Selecao) :
  (forall r, In r (df_filtrado rows sel) <->
             In r rows
             /\ In (Ano r) (anos_selecionados sel)
             /\ In (Mes r) (meses_selecionados sel)
             /\ In (Procedimento r) (procedimentos_selecionados sel)
             /\ In (Cliente r) (clientes_selecionados sel))
  /\ (anos_selecionados sel = [] \/ meses_selecionados sel = []
      \/ procedimentos_selecionados sel = [] \/ clientes_selecionados sel = []
      -> df_filtrado rows sel = []).
Proof.
  rewrite df_filtrado_filter. split.
  - intros r. rewrite filter_In, selecionada_spec. tauto.
  - intros Hvazia. apply filter_nenhuma. intros r _.
    destruct (selecionada sel r) eqn:Hs; [|reflexivity].
    apply selecionada_spec in Hs. destruct Hs as (Ha & Hm & Hp & Hc).
    destruct Hvazia as [E | [E | [E | E]]]; rewrite E in *; contradiction.
Qed.

Lemma C1_filtro_conjuncao_witness :
  df_filtrado tabela_exemplo
    {| anos_selecionados := [2024; 2023]; meses_selecionados := [];
       procedimentos_selecionados := ["CONSULTA"; "EXAME"];
       clientes_selecionados := [Some "CONVENIO A"] |} = [].
Proof.
  apply (proj2 (C1_filtro_conjuncao tabela_exemplo _)).
  right; left; reflexivity.
Defined.

Lemma filtro_total (rows : list Linha) (sel : Selecao) :
  (forall r, In r rows ->
     In (Ano r) (anos_selecionados sel)
     /\ In (Mes r) (meses_selecionados sel)
     /\ In (Procedimento r) (procedimentos_selecionados sel)
     /\ In (Cliente r) (clientes_selecionados sel)) ->
  df_filtrado rows sel = rows.
Proof.
  intros Hsel. rewrite df_filtrado_filter. apply filter_todas.
  intros r Hr. apply selecionada_spec. now apply Hsel.
Qed.

(** C5. When the selected values of every dimension are, as a set, the
    distinct values the table holds in that dimension, the filter returns
    the whole table. *)
Theorem C5_filtro_identidade (rows : list Linha) (sel : Selecao) :
  (forall a, In a (anos_selecionados sel) <-> In a (map Ano rows)) ->
  (forall m, In m (meses_selecionados sel) <-> In m (map Mes rows)) ->
  (forall p, In p (procedimentos_selecionados sel)
             <-> In p (map Procedimento rows)) ->
  (forall c, In c (clientes_selecionados sel) <-> In c (map Cliente rows)) ->
  df_filtrado rows sel = rows.
Proof.
  intros Ha Hm Hp Hc. apply filtro_total. intros r Hr.
  rewrite Ha, Hm, Hp, Hc. repeat split; now apply in_map.
Qed.

Lemma C5_filtro_identidade_witness :
  df_filtrado tabela_exemplo sel_tudo = tabela_exemplo.
Proof.
  apply C5_filtro_identidade; intros x; simpl; intuition congruence.
Defined.

(** C6. The filtered rows are a sub-list of the table in table order; the
    result is a function of the table and the selection, filtering the
    result again changes nothing, and the step that computes the view
    leaves the loaded table as it was, so that a second run of the step
    gives the same view. *)
Theorem C6_filtro_estavel (rows : list Linha) (sel : Selecao) :
  Sublista (df_filtrado rows sel) rows
  /\ (forall r, In r (df_filtrado rows sel) -> In r rows)
  /\ df_filtrado (df_filtrado rows sel) sel = df_filtrado rows sel
  /\ (forall s : Sessao,
        s_df (passo_filtrar sel s) = s_df s
        /\ passo_filtrar sel (passo_filtrar sel s) = passo_filtrar sel s).
Proof.
  rewrite !df_filtrado_filter. repeat split.
  - apply Sublista_filter.
  - intros r Hr. apply filter_In in Hr. tauto.
  - apply filter_idem.
Qed.

(* ================================================================= *)
(** ** The stable sort *)

Section Ordenacao.
Context {A : Type} (antes : A -> A -> bool).

Lemma inserir_Permutation (x : A) (l : list A) :
  Permutation (x :: l) (inserir antes x l).
Proof.
  induction l as [|y l IH]; simpl; [apply Permutation_refl|].
  destruct (antes y x); [|apply Permutation_refl].
  eapply perm_trans; [apply perm_swap|]. now apply perm_skip.
Qed.

Lemma ordenar_Permutation (l : list A) : Permutation l (ordenar antes l).
Proof.
  induction l as [|x l IH]; simpl; [constructor|].
  eapply perm_trans; [|apply inserir_Permutation]. now apply perm_skip.
Qed.

Lemma ordenar_In (l : list A) (x : A) : In x (ordenar antes l) <-> In x l.
Proof.
  split; apply Permutation_in;
    [apply Permutation_sym|]; apply ordenar_Permutation.
Qed.

Hypothesis antes_assim : forall a b, antes a b = true -> antes b a = false.
Hypothesis antes_cotrans :
  forall a b c, antes a c = true -> antes a b = true \/ antes b c = true.

Variable P : A -> A -> Prop.

Lemma inserir_ordenada (x : A) (l : list A) :
  StronglySorted (precede antes P) l -> Forall (P x) l ->
  StronglySorted (precede antes P) (inserir antes x l).
Proof.
  induction l as [|y l IH]; simpl; intros Hs Hx.
  - repeat constructor.
  - apply StronglySorted_inv in Hs. destruct Hs as [Hs Hy].
    apply Forall_cons_iff in Hx. destruct Hx as [Hxy Hx].
    destruct (antes y x) eqn:Hyx.
    + constructor; [now apply IH|].
      eapply Permutation_Forall; [apply inserir_Permutation|].
      constructor; [now left | assumption].
    + constructor; [now constructor|].
      constructor; [right; now split|].
      rewrite Forall_forall in *. intros z Hz.
      destruct (antes x z) eqn:Hxz; [now left|].
      right. split; [|now apply Hx].
      destruct (antes z x) eqn:Hzx; [|reflexivity].
      destruct (antes_cotrans z y x Hzx) as [Hzy | Hyx']; [|congruence].
      destruct (Hy z Hz) as [Hyz | [Hzy' _]]; [|congruence].
      apply antes_assim in Hyz. congruence.
Qed.

Lemma ordenar_ordenada (l : list A) :
  StronglySorted P l -> StronglySorted (precede antes P) (ordenar antes l).
Proof.
  induction l as [|x l IH]; simpl; intros Hs; [constructor|].
  apply StronglySorted_inv in Hs. destruct Hs as [Hs Hx].
  apply inserir_ordenada; [now apply IH|].
  eapply Permutation_Forall; [apply ordenar_Permutation | assumption].
Qed.
End Ordenacao.


Lemma StronglySorted_impl {A} (R S : A -> A -> Prop) (l : list A) :
  (forall a b, In a l -> In b l -> R a b -> S a b) ->
  StronglySorted R l -> StronglySorted S l.
Proof.
  induction l as [|x l IH]; intros HRS Hs; [constructor|].
  apply StronglySorted_inv in Hs. destruct Hs as [Hs Hx].
  constructor.
  - apply IH; [|assumption]. intros a b Ha Hb. apply HRS; now right.
  - rewrite Forall_forall in *. intros y Hy.
    apply HRS; [now left | now right | now apply Hx].
Qed.

Lemma StronglySorted_map {A B} (f : A -> B) (R : B -> B -> Prop) (l : list A) :
  StronglySorted (fun a b => R (f a) (f b)) l -> StronglySorted R (map f l).
Proof.
  induction 1 as [|x l Hs IH Hx]; simpl; constructor; [assumption|].
  rewrite Forall_forall in *. intros y Hy.
  apply in_map_iff in Hy. destruct Hy as [z [<- Hz]]. now apply Hx.
Qed.

Lemma NoDup_StronglySorted_neq {A} (l : list A) :
  NoDup l -> StronglySorted (fun a b => a <> b) l.
Proof.
  induction 1 as [|x l Hx Hnd IH]; constructor; [assumption|].
  rewrite Forall_forall. intros y Hy ->. contradiction.
Qed.

(* ================================================================= *)
(** ** Keys and distinct values *)

Section ChaveFatos.
Context {K : Type} `{Chave K}.

Lemma chave_eqb_eq (a b : K) : chave_eqb a b = true <-> a = b.
Proof.
  unfold chave_eqb. rewrite <- comparar_eq.
  destruct (comparar a b); split; congruence.
Qed.

Lemma chave_ltb_menor (a b : K) : chave_ltb a b = true <-> menor a b.
Proof.
  unfold chave_ltb, menor. destruct (comparar a b); split; congruence.
Qed.

Lemma menor_irrefl (a : K) : ~ menor a a.
Proof.
  unfold menor. intros Hlt.
  assert (Heq : comparar a a = Eq) by now apply comparar_eq.
  congruence.
Qed.

Lemma menor_trans (a b c : K) : menor a b -> menor b c -> menor a c.
Proof. apply comparar_trans. Qed.

Lemma menor_total (a b : K) : menor a b \/ a = b \/ menor b a.
Proof.
  unfold menor. destruct (comparar a b) eqn:Hab.
  - right; left. now apply comparar_eq.
  - now left.
  - right; right. rewrite comparar_antisym, Hab. reflexivity.
Qed.

Lemma menor_assim (a b : K) : menor a b -> ~ menor b a.
Proof.
  intros Hab Hba. apply (menor_irrefl a). now apply menor_trans with b.
Qed.

Lemma chave_ltb_assim (a b : K) :
  chave_ltb a b = true -> chave_ltb b a = false.
Proof.
  intros Hab. destruct (chave_ltb b a) eqn:Hba; [|reflexivity].
  apply chave_ltb_menor in Hab, Hba. now apply menor_assim in Hab.
Qed.

Lemma chave_ltb_cotrans (a b c : K) :
  chave_ltb a c = true -> chave_ltb a b = true \/ chave_ltb b c = true.
Proof.
  rewrite !chave_ltb_menor. intros Hac.
  destruct (menor_total a b) as [Hab | [-> | Hba]]; [now left | now right|].
  right. now apply menor_trans with a.
Qed.

Lemma sorted_crescente (l : list K) :
  NoDup l -> StronglySorted menor (sorted l).
Proof.
  intros Hnd. unfold sorted.
  apply StronglySorted_impl with (R := precede chave_ltb (fun a b => a <> b)).
  - intros a b _ _ [Hab | [Hba Hneq]]; [now apply chave_ltb_menor|].
    destruct (menor_total a b) as [Hlt | [Heq | Hgt]];
      [assumption | contradiction|].
    apply chave_ltb_menor in Hgt. congruence.
  - apply ordenar_ordenada;
      [apply chave_ltb_assim | apply chave_ltb_cotrans|].
    now apply NoDup_StronglySorted_neq.
Qed.

Lemma StronglySorted_menor_NoDup (l : list K) :
  StronglySorted menor l -> NoDup l.
Proof.
  induction 1 as [|x l Hs IH Hx]; constructor; [|assumption].
  rewrite Forall_forall in Hx. intros Hin.
  exact (menor_irrefl x (Hx x Hin)).
Qed.
End ChaveFatos.

Section Unique.
Context {A : Type} (eqb : A -> A -> bool).
Hypothesis eqb_eq : forall a b, eqb a b = true <-> a = b.

Lemma existsb_eqb_In (x : A) (l : list A) :
  existsb (eqb x) l = true <-> In x l.
Proof.
  rewrite existsb_exists. split.
  - intros [y [Hy Heq]]. apply eqb_eq in Heq. now subst.
  - intros Hin. exists x. split; [assumption | now apply eqb_eq].
Qed.

Lemma unique_acc (col vistos : list A) :
  NoDup vistos ->
  let r := fold_left (fun vistos x => if existsb (eqb x) vistos then vistos
                                      else vistos ++ [x]) col vistos in
  NoDup r /\ forall x, In x r <-> In x vistos \/ In x col.
Proof.
  revert vistos. induction col as [|y col IH]; simpl; intros vistos Hnd.
  - split; [assumption | tauto].
  - destruct (existsb (eqb y) vistos) eqn:Hy.
    + destruct (IH vistos Hnd) as [Hnd' Hin]. split; [assumption|].
      intros x. rewrite Hin. apply existsb_eqb_In in Hy.
      split; [tauto|]. intros [Hx | [<- | Hx]]; tauto.
    + assert (Hnd1 : NoDup (vistos ++ [y])).
      { apply NoDup_app; [assumption | repeat constructor; simpl; tauto|].
        intros x Hx [<- | []].
        apply existsb_eqb_In in Hx. congruence. }
      destruct (IH _ Hnd1) as [Hnd' Hin]. split; [assumption|].
      intros x. rewrite Hin, in_app_iff. simpl. tauto.
Qed.

Lemma unique_NoDup (col : list A) : NoDup (unique eqb col).
Proof. apply (unique_acc col []). constructor. Qed.

Lemma unique_In (col : list A) (x : A) : In x (unique eqb col) <-> In x col.
Proof.
  destruct (unique_acc col [] (NoDup_nil A)) as [_ Hin].
  unfold unique. rewrite Hin. simpl. tauto.
Qed.
End Unique.

(* ================================================================= *)
(** ** Sums *)

Lemma wrap64_idem_l (a b : Z) : wrap64 (wrap64 a + b) = wrap64 (a + b).
Proof.
  unfold wrap64. f_equal.
  replace ((a + 2 ^ 63) mod 2 ^ 64 - 2 ^ 63 + b + 2 ^ 63)
    with ((a + 2 ^ 63) mod 2 ^ 64 + b) by ring.
  rewrite Z.add_mod_idemp_l by (compute; discriminate).
  f_equal. ring.
Qed.

Lemma wrap64_idem_r (a b : Z) : wrap64 (a + wrap64 b) = wrap64 (a + b).
Proof. rewrite Z.add_comm, wrap64_idem_l. f_equal. apply Z.add_comm. Qed.

Lemma wrap64_pequeno (z : Z) : - 2 ^ 63 <= z < 2 ^ 63 -> wrap64 z = z.
Proof.
  intros Hz. unfold wrap64. rewrite Z.mod_small; lia.
Qed.

Lemma Series_sum_acc (l : list Z) (acc : Z) :
  fold_left (fun a q => wrap64 (a + q)) l (wrap64 acc) = wrap64 (acc + soma l).
Proof.
  revert acc. induction l as [|q l IH]; simpl; intros acc.
  - f_equal. ring.
  - rewrite wrap64_idem_l, IH. f_equal. ring.
Qed.

Lemma Series_sum_wrap (l : list Z) : Series_sum l = wrap64 (soma l).
Proof.
  unfold Series_sum. change 0 with (wrap64 0) at 1.
  rewrite Series_sum_acc. reflexivity.
Qed.

(** Within the [int64] range the column sum is the integer sum. *)
Lemma Series_sum_exata (l : list Z) :
  - 2 ^ 63 <= soma l < 2 ^ 63 -> Series_sum l = soma l.
Proof. intros Hl. rewrite Series_sum_wrap. now apply wrap64_pequeno. Qed.

Lemma soma_wrap (l : list Z) : wrap64 (soma (map wrap64 l)) = wrap64 (soma l).
Proof.
  induction l as [|q l IH]; simpl; [reflexivity|].
  rewrite wrap64_idem_l, <- wrap64_idem_r, IH, wrap64_idem_r. reflexivity.
Qed.

Lemma soma_app (l1 l2 : list Z) : soma (l1 ++ l2) = soma l1 + soma l2.
Proof. induction l1 as [|q l1 IH]; simpl; [reflexivity | rewrite IH; ring]. Qed.

(* ================================================================= *)
(** ** Grouping *)

Section GroupByFatos.
Context {K : Type} `{Chave K}.
Variable key : Linha -> option K.

Lemma tem_chave_spec (k : K) (r : Linha) :
  tem_chave key k r = true <-> key r = Some k.
Proof.
  unfold tem_chave. destruct (key r) as [k'|].
  - rewrite chave_eqb_eq. split; congruence.
  - split; discriminate.
Qed.

Lemma chaves_In (v : list Linha) (k : K) :
  In k (chaves key v) <-> exists r, In r v /\ key r = Some k.
Proof.
  induction v as [|r v IH]; simpl.
  - split; [contradiction | intros [r [[] _]]].
  - destruct (key r) as [k'|] eqn:Hr; simpl; rewrite IH; split.
    + intros [-> | [r' [Hin Hk]]]; [exists r; tauto | exists r'; tauto].
    + intros [r' [[<- | Hin] Hk]]; [left; congruence | right; eauto].
    + intros [r' [Hin Hk]]. exists r'; tauto.
    + intros [r' [[<- | Hin] Hk]]; [congruence | eauto].
Qed.

Lemma groupby_chaves (v : list Linha) :
  map fst (groupby_sum key v) = grupos key v.
Proof.
  unfold groupby_sum, grupos. rewrite map_map. simpl. apply map_id.
Qed.

Lemma grupos_crescente (v : list Linha) : StronglySorted menor (grupos key v).
Proof. apply sorted_crescente, unique_NoDup, chave_eqb_eq. Qed.

Lemma grupos_In (v : list Linha) (k : K) :
  In k (grupos key v) <-> exists r, In r v /\ key r = Some k.
Proof.
  unfold grupos, sorted.
  rewrite ordenar_In, (unique_In _ chave_eqb_eq). apply chaves_In.
Qed.


Lemma groupby_crescente (v : list Linha) :
  StronglySorted (fun a b => menor (fst a) (fst b)) (groupby_sum key v).
Proof.
  pose proof (grupos_crescente v) as Hs. rewrite <- groupby_chaves in Hs.
  remember (groupby_sum key v) as g eqn:Hg. clear Hg.
  induction g as [|a g IH]; [constructor|].
  simpl in Hs. apply StronglySorted_inv in Hs. destruct Hs as [Hs Ha].
  constructor; [now apply IH|].
  rewrite Forall_forall in *. intros b Hb. apply Ha. now apply in_map.
Qed.

Lemma soma_grupo_cons (k : K) (r : Linha) (v : list Linha) :
  soma (map Quantidade (filter (tem_chave key k) (r :: v)))
  = parcela key k r + soma (map Quantidade (filter (tem_chave key k) v)).
Proof.
  unfold parcela. simpl. destruct (tem_chave key k r); reflexivity.
Qed.

Lemma soma_parcelas (ks : list K) (r : Linha) (k0 : K) :
  NoDup ks -> key r = Some k0 ->
  soma (map (fun k => parcela key k r) ks)
  = if existsb (chave_eqb k0) ks then Quantidade r else 0.
Proof.
  intros Hnd Hr. induction Hnd as [|k ks Hk Hnd IH]; simpl; [reflexivity|].
  rewrite IH. unfold parcela, tem_chave. rewrite Hr.
  destruct (chave_eqb k0 k) eqn:Hk0; simpl; [|reflexivity].
  apply chave_eqb_eq in Hk0. subst k0.
  destruct (existsb (chave_eqb k) ks) eqn:Hex; [|ring].
  apply (existsb_eqb_In _ chave_eqb_eq) in Hex. contradiction.
Qed.

Lemma soma_grupos (ks : list K) (v : list Linha) :
  NoDup ks ->
  (forall r, In r v -> exists k, key r = Some k /\ In k ks) ->
  soma (map (fun k => soma (map Quantidade (filter (tem_chave key k) v))) ks)
  = soma (map Quantidade v).
Proof.
  intros Hnd. induction v as [|r v IH]; intros Hcob.
  - simpl. induction ks as [|k ks IHk]; simpl; [reflexivity|].
    apply NoDup_cons_iff in Hnd. now rewrite IHk.
  - rewrite (map_ext _ (fun k => parcela key k r
               + soma (map Quantidade (filter (tem_chave key k) v))))
      by (intros k; apply soma_grupo_cons).
    assert (Hsplit : forall f g : K -> Z,
               soma (map (fun k => f k + g k) ks)
               = soma (map f ks) + soma (map g ks)).
    { intros f g. clear. induction ks as [|k ks IHk]; simpl; [reflexivity|].
      rewrite IHk. ring. }
    rewrite Hsplit, IH by (intros r' Hr'; apply Hcob; now right).
    destruct (Hcob r (or_introl eq_refl)) as [k0 [Hk0 Hin]].
    rewrite (soma_parcelas ks r k0 Hnd Hk0).
    apply (existsb_eqb_In _ chave_eqb_eq) in Hin. rewrite Hin.
    reflexivity.
Qed.

(** When every row has a key the group sums add up to the column sum. *)
Lemma groupby_soma_total (v : list Linha) :
  (forall r, In r v -> key r <> None) ->
  Series_sum (map snd (groupby_sum key v)) = Series_sum (map Quantidade v).
Proof.
  intros Hkey. rewrite !Series_sum_wrap.
  unfold groupby_sum. rewrite map_map. simpl.
  rewrite (map_ext _ (fun k => wrap64
             (soma (map Quantidade (filter (tem_chave key k) v)))))
    by (intros k; apply Series_sum_wrap).
  rewrite <- (map_map (fun k => soma (map Quantidade
                                   (filter (tem_chave key k) v))) wrap64).
  rewrite soma_wrap. f_equal.
  apply soma_grupos.
  - apply StronglySorted_menor_NoDup, (grupos_crescente v).
  - intros r Hr. destruct (key r) as [k|] eqn:Hk.
    + exists k. split; [reflexivity|]. apply grupos_In. eauto.
    + exfalso. now apply (Hkey r Hr).
Qed.
End GroupByFatos.

(* ================================================================= *)
(** ** The three aggregations *)



Section TopN.
Context {K : Type} `{Chave K}.

Lemma maior_soma_assim (a b : K * Z) :
  maior_soma a b = true -> maior_soma b a = false.
Proof. unfold maior_soma. rewrite Z.ltb_lt, Z.ltb_ge. lia. Qed.

Lemma maior_soma_cotrans (a b c : K * Z) :
  maior_soma a c = true -> maior_soma a b = true \/ maior_soma b c = true.
Proof. unfold maior_soma. rewrite !Z.ltb_lt. lia. Qed.

Lemma nlargest_ordenada (s : list (K * Z)) :
  StronglySorted (fun a b => menor (fst a) (fst b)) s ->
  StronglySorted ordem_top (ordenar maior_soma s).
Proof.
  intros Hs.
  apply StronglySorted_impl
    with (R := precede (@maior_soma K)
                 (fun a b => menor (fst a) (fst b))).
  - unfold ordem_top, maior_soma.
    intros a b _ _ [Hab | [Hba Hk]].
    + left. now apply Z.ltb_lt.
    + apply Z.ltb_ge in Hba.
      destruct (Z.eq_dec (snd a) (snd b)) as [Heq | Hneq];
        [right; now split | left; lia].
  - apply ordenar_ordenada;
      [apply maior_soma_assim | apply maior_soma_cotrans | assumption].
Qed.


End TopN.



Example corte_com_empate :
  nlargest 2 [("A", 5); ("B", 7); ("C", 5); ("D", 5)] = [("B", 7); ("A", 5)].
Proof. reflexivity. Qed.

(* ================================================================= *)
(** ** The loader *)

Lemma to_datetime_casos (col : list CelulaData) :
  if existsb data_ilegivel col
  then to_datetime col = Levanta DateParseError
  else exists ds, to_datetime col = Ok ds /\ List.length ds = List.length col.
Proof.
  induction col as [|c col IH]; simpl.
  - exists []. split; reflexivity.
  - destruct c; simpl; try reflexivity;
      destruct (existsb data_ilegivel col);
      try (rewrite IH; reflexivity);
      destruct IH as [ds [-> Hlen]]; simpl; eexists; split;
        try reflexivity; simpl; now rewrite Hlen.
Qed.

Lemma acessor_str_casos (col : list Celula) :
  if cliente_nao_texto col
  then acessor_str col = Levanta AttributeError
  else acessor_str col = Ok col.
Proof.
  destruct col as [|c col]; [reflexivity|].
  unfold cliente_nao_texto, acessor_str.
  destruct (existsb eh_texto (c :: col)); reflexivity.
Qed.

Lemma montar_Cliente (brutas : list LinhaBruta) (datas : list (option Z))
    (procs : list string) (clis : list (option string)) :
  List.length datas = List.length brutas ->
  List.length procs = List.length brutas ->
  List.length clis = List.length brutas ->
  map Cliente (montar brutas datas procs clis) = clis.
Proof.
  revert datas procs clis.
  induction brutas as [|b brutas IH]; intros [|d datas] [|p procs] [|c clis];
    simpl; intros Hd Hp Hc; try discriminate; try reflexivity.
  f_equal. apply IH; congruence.
Qed.

(** The loader fails exactly on the causes listed. *)
Lemma carga_falha_sse (l : Leitura) :
  carga_falha l = true <-> exists e, carregar_corpo l = Levanta e.
Proof.
  assert (Hsim : forall e : Excecao,
             true = true <-> exists e', @Levanta DataFrame e = Levanta e').
  { intros e. split; [intros _; now exists e | reflexivity]. }
  destruct l as [| m | q]; simpl; try apply Hsim.
  unfold carregar_corpo, getitem. simpl.
  destruct (tem_coluna "Data" (qColunas q)); simpl; [|apply Hsim].
  pose proof (to_datetime_casos (map bData (qLinhas q))) as Hd.
  destruct (existsb data_ilegivel (map bData (qLinhas q))); simpl.
  { rewrite Hd. simpl. apply Hsim. }
  destruct Hd as [ds [-> _]]. simpl.
  destruct (tem_coluna "Procedimento" (qColunas q)); simpl; [|apply Hsim].
  destruct (tem_coluna "Cliente" (qColunas q)); simpl; [|apply Hsim].
  pose proof (acessor_str_casos (map bCliente (qLinhas q))) as Hc.
  destruct (cliente_nao_texto (map bCliente (qLinhas q))); rewrite Hc; simpl.
  - apply Hsim.
  - split; [discriminate | intros [e He]; discriminate].
Qed.

(** A loaded client column is the normalised raw column, and it holds some
    text unless the table has no row. *)
Lemma carga_clientes (l : Leitura) (df : DataFrame) :
  carregar_corpo l = Ok df ->
  exists brutas,
    map Cliente (linhas df)
    = map (fun b => str_upper (str_strip (bCliente b))) brutas
    /\ cliente_nao_texto (map bCliente brutas) = false.
Proof.
  destruct l as [| m | q]; simpl; try discriminate.
  unfold carregar_corpo, getitem. simpl.
  destruct (tem_coluna "Data" (qColunas q)); simpl; [|discriminate].
  pose proof (to_datetime_casos (map bData (qLinhas q))) as Hd.
  destruct (existsb data_ilegivel (map bData (qLinhas q)));
    [rewrite Hd; discriminate|].
  destruct Hd as [ds [-> Hlen]]. simpl.
  destruct (tem_coluna "Procedimento" (qColunas q)); simpl; [|discriminate].
  destruct (tem_coluna "Cliente" (qColunas q)); simpl; [|discriminate].
  pose proof (acessor_str_casos (map bCliente (qLinhas q))) as Hc.
  destruct (cliente_nao_texto (map bCliente (qLinhas q))) eqn:Hnt;
    rewrite Hc; simpl; [discriminate|].
  intros Hdf. injection Hdf as <-. simpl.
  exists (qLinhas q). split; [|assumption].
  rewrite montar_Cliente, !map_map; try reflexivity;
    rewrite ?Hlen, !length_map; reflexivity.
Qed.

(* ================================================================= *)
(** ** The page of a run *)

Lemma area_principal_vazia (cols : list string) (pg : Pagina) :
  area_principal cols [] pg = (pg ++ [Aviso], inl tt).
Proof. reflexivity. Qed.

Lemma area_principal_cheia (cols : list string) (v : list Linha) (pg : Pagina) :
  v <> [] -> tem_coluna "Quantidade" cols = true ->
  area_principal cols v pg
  = (pg ++ [Resumo (total_quantidade v) (num_registros v);
            GraficoEvolucao (df_evolucao v);
            GraficoTopProc (sort_values (df_top_proc v));
            GraficoCliente (df_cliente v);
            Tabela (map detalhe v)], inl tt).
Proof.
  intros Hv Hq. destruct v as [|r v]; [contradiction|].
  unfold area_principal, seguir, chamar, getitem, st. rewrite Hq.
  rewrite <- !app_assoc. reflexivity.
Qed.

Lemma area_principal_sem_quantidade (cols : list string) (v : list Linha)
    (pg : Pagina) :
  v <> [] -> tem_coluna "Quantidade" cols = false ->
  area_principal cols v pg = (pg, inr (Falha (KeyError "Quantidade"))).
Proof.
  intros Hv Hq. destruct v as [|r v]; [contradiction|].
  unfold area_principal, seguir, chamar, getitem. rewrite Hq. reflexivity.
Qed.

(** The sidebar renders filters only; when it completes, the client options
    are the sorted distinct clients of the table. *)
Lemma opcoes_casos (df : DataFrame) (pg : Pagina) :
  exists filtros r,
    opcoes df pg = (pg ++ filtros, r)
    /\ forallb eh_filtro filtros = true
    /\ (forall ops, r = inl ops ->
          sorted_clientes (unique opt_eqb (map Cliente (linhas df)))
          = Ok (clientes_disponiveis ops))
    /\ (forall f, r = inr f -> exists e, f = Falha e).
Proof.
  assert (Hfalha : forall (e : Excecao) (f : Fim),
             @inr Opcoes Fim (Falha e) = inr f -> exists e', f = Falha e').
  { intros e f Hf. injection Hf as <-. now exists e. }
  unfold opcoes, seguir, chamar, st, getitem, retornar.
  destruct (tem_coluna "Ano" (colunas df)); simpl;
    [|exists [], (inr (Falha (KeyError "Ano")));
      rewrite app_nil_r; repeat split; (discriminate || apply Hfalha)].
  destruct (tem_coluna "Mes" (colunas df)); simpl;
    [|eexists [_], _; repeat split; (discriminate || apply Hfalha)].
  destruct (tem_coluna "Procedimento" (colunas df)); simpl;
    [|eexists [_; _], _; rewrite <- !app_assoc; repeat split;
      (discriminate || apply Hfalha)].
  destruct (tem_coluna "Cliente" (colunas df)); simpl;
    [|eexists [_; _; _], _; rewrite <- !app_assoc; repeat split;
      (discriminate || apply Hfalha)].
  destruct (sorted_clientes (unique opt_eqb (map Cliente (linhas df))))
    as [cs | e]; simpl.
  - eexists [_; _; _; _], _. rewrite <- !app_assoc.
    repeat split; [|discriminate].
    intros ops Hops. injection Hops as <-. reflexivity.
  - eexists [_; _; _], _. rewrite <- !app_assoc.
    repeat split; (discriminate || apply Hfalha).
Qed.

(** The options of a completed sidebar are, dimension by dimension, the
    values present in the table. *)
Lemma opcoes_presentes (df : DataFrame) (pg pg' : Pagina) (ops : Opcoes) :
  opcoes df pg = (pg', inl ops) ->
  (forall a, In a (anos_disponiveis ops) <-> In a (map Ano (linhas df)))
  /\ (forall m, In m (meses_disponiveis ops) <-> In m (map Mes (linhas df)))
  /\ (forall p, In p (procedimentos_disponiveis ops)
                <-> In p (map Procedimento (linhas df)))
  /\ (forall c, In c (clientes_disponiveis ops)
                <-> In c (map Cliente (linhas df))).
Proof.
  unfold opcoes, seguir, chamar, st, getitem, retornar.
  destruct (tem_coluna "Ano" (colunas df)); simpl; [|discriminate].
  destruct (tem_coluna "Mes" (colunas df)); simpl; [|discriminate].
  destruct (tem_coluna "Procedimento" (colunas df)); simpl; [|discriminate].
  destruct (tem_coluna "Cliente" (colunas df)); simpl; [|discriminate].
  unfold sorted_clientes.
  destruct (existsb eh_nan _ && existsb _ _); simpl; [discriminate|].
  intros Hops. injection Hops as _ <-. simpl.
  unfold sorted, sorted_reverse.
  split; [|split; [|split]]; intros x.
  - rewrite ordenar_In, (unique_In _ Z.eqb_eq). reflexivity.
  - rewrite ordenar_In, (unique_In _ Z.eqb_eq). reflexivity.
  - rewrite ordenar_In, (unique_In _ String.eqb_eq). reflexivity.
  - rewrite ordenar_In, (unique_In _ opt_eqb_eq). reflexivity.
Qed.

(** The first render, with every widget at its default, shows the whole
    table. *)
Lemma padrao_mostra_tudo (df : DataFrame) (pg pg' : Pagina) (ops : Opcoes) :
  opcoes df pg = (pg', inl ops) ->
  df_filtrado (linhas df) (selecao_padrao ops) = linhas df.
Proof.
  intros Hops. apply opcoes_presentes in Hops.
  destruct Hops as (Ha & Hm & Hp & Hc).
  apply filtro_total. intros r Hr. simpl.
  rewrite Ha, Hm, Hp, Hc. repeat split; now apply in_map.
Qed.

Lemma filtro_na_barra (filtros : list Elemento) (e : Elemento) :
  forallb eh_filtro filtros = true -> In e filtros -> eh_filtro e = true.
Proof. intros Hf He. rewrite forallb_forall in Hf. now apply Hf. Qed.

(** A run that gets past the sidebar has a client column made of text
    only: the loader leaves a missing client as [NaN], and [sorted] raises on
    a column that mixes text and [NaN]. *)
Lemma clientes_texto (l : Leitura) (df : DataFrame)
    (cs : list (option string)) :
  carregar_corpo l = Ok df ->
  sorted_clientes (unique opt_eqb (map Cliente (linhas df))) = Ok cs ->
  forall r, In r (linhas df) -> Cliente r <> None.
Proof.
  intros Hcarga Hsort r Hr Hnan.
  destruct (carga_clientes l df Hcarga) as [brutas [Hcol Htexto]].
  assert (Hnone : In None (map Cliente (linhas df))).
  { rewrite <- Hnan. now apply in_map. }
  assert (Hsome : exists s, In (Some s) (map Cliente (linhas df))).
  { rewrite Hcol in *. destruct brutas as [|b brutas]; [contradiction|].
    change (negb (existsb eh_texto (map bCliente (b :: brutas))) = false)
      in Htexto.
    apply negb_false_iff, existsb_exists in Htexto.
    destruct Htexto as [c [Hc Hct]]. destruct c as [s | |]; try discriminate.
    apply in_map_iff in Hc. destruct Hc as [b' [Hb' Hin]].
    exists (upper (strip s)). apply in_map_iff. exists b'.
    split; [now rewrite Hb' | assumption]. }
  destruct Hsome as [s Hs].
  unfold sorted_clientes in Hsort.
  assert (H1 : existsb eh_nan (unique opt_eqb (map Cliente (linhas df))) = true).
  { apply existsb_exists. exists None. split; [|reflexivity].
    now apply (unique_In _ opt_eqb_eq). }
  assert (H2 : existsb (fun c => negb (eh_nan c))
                 (unique opt_eqb (map Cliente (linhas df))) = true).
  { apply existsb_exists. exists (Some s). split; [|reflexivity].
    now apply (unique_In _ opt_eqb_eq). }
  rewrite H1, H2 in Hsort. discriminate.
Qed.

Lemma executar_Corrida (fs : SistemaArquivos) (widgets : Opcoes -> Selecao) :
  Corrida fs widgets (executar fs widgets).
Proof.
  unfold executar, dashboard, seguir, carregar.
  destruct (carregar_corpo (fs ARQUIVO_DADOS)) as [df | e] eqn:Hcarga.
  - unfold carregar_dados_consolidados. rewrite Hcarga.
    cbn [map app]. unfold st at 1. cbn [app].
    destruct (opcoes_casos df [Titulo])
      as [filtros [r [-> [Hf [Hops Hfim]]]]].
    destruct r as [ops | f].
    + specialize (Hops ops eq_refl).
      assert (Hv : df_filtrado (linhas df) (widgets ops) = []
                   \/ df_filtrado (linhas df) (widgets ops) <> []).
      { destruct (df_filtrado (linhas df) (widgets ops));
          [now left | right; discriminate]. }
      destruct Hv as [Hv | Hv].
      * rewrite Hv, area_principal_vazia. unfold st.
        rewrite <- !app_assoc. cbn [app].
        eapply corrida_aviso; eassumption.
      * destruct (tem_coluna "Quantidade" (colunas df)) eqn:Hq.
        -- rewrite area_principal_cheia by assumption. unfold st.
           rewrite <- !app_assoc. cbn [app].
           apply (corrida_painel fs widgets df filtros ops); assumption.
        -- rewrite area_principal_sem_quantidade by assumption.
           cbn [app]. eapply corrida_excecao; eassumption.
    + cbn [app]. destruct (Hfim f eq_refl) as [e ->].
      eapply corrida_excecao; eassumption.
  - unfold carregar_dados_consolidados. rewrite Hcarga.
    destruct e; cbn [map app]; apply corrida_sem_tabela;
      unfold carregar_dados_consolidados; rewrite Hcarga; reflexivity.
Qed.

Lemma pagina_In (filtros resto : list Elemento) (e : Elemento) :
  forallb eh_filtro filtros = true ->
  In e (Titulo :: filtros ++ resto) ->
  e = Titulo \/ eh_filtro e = true \/ In e resto.
Proof.
  intros Hf [<- | He]; [now left|].
  apply in_app_or in He. destruct He as [He | He]; [|tauto].
  right; left. now apply (filtro_na_barra filtros).
Qed.

(** A page that shows a summary, a chart or the detail table comes from a
    run that completed the sidebar and has a view with rows; every such
    element of the page is the one computed from that view. *)
Lemma Corrida_painel (fs : SistemaArquivos) (widgets : Opcoes -> Selecao)
    (pg : Pagina) (fim : Fim) (e0 : Elemento) :
  Corrida fs widgets (pg, fim) ->
  In e0 pg -> do_painel e0 = true ->
  exists df ops,
    carregar_corpo (fs ARQUIVO_DADOS) = Ok df
    /\ sorted_clientes (unique opt_eqb (map Cliente (linhas df)))
       = Ok (clientes_disponiveis ops)
    /\ df_filtrado (linhas df) (widgets ops) <> []
    /\ forall e, In e pg -> do_painel e = true ->
                 In e (painel (df_filtrado (linhas df) (widgets ops))).
Proof.
  intros Hc He0 Hp0.
  assert (Hnf : forall e, do_painel e = true ->
                  e <> Titulo /\ eh_filtro e = false /\ e <> Aviso
                  /\ e <> Rodape /\ forall m, e <> Erro m).
  { intros e Hp. destruct e; try discriminate; repeat split;
      try discriminate; intros m'; discriminate. }
  inversion Hc as [m Hcarga | df filtros ex Hcarga Hf
                   | df filtros ops Hcarga Hf Hs Hv
                   | df filtros ops Hcarga Hf Hs Hv]; subst pg fim.
  - destruct (Hnf e0 Hp0) as (_ & _ & _ & _ & Hm).
    destruct He0 as [He | []]. symmetry in He. now apply Hm in He.
  - destruct (Hnf e0 Hp0) as (Ht & Hfl & _).
    rewrite <- (app_nil_r filtros) in He0.
    apply (pagina_In _ _ _ Hf) in He0.
    destruct He0 as [He | [He | []]]; congruence.
  - destruct (Hnf e0 Hp0) as (Ht & Hfl & Ha & Hr & _).
    apply (pagina_In _ _ _ Hf) in He0.
    destruct He0 as [He | [He | [He | [He | []]]]]; congruence.
  - exists df, ops. repeat split; try assumption.
    intros e He Hp. destruct (Hnf e Hp) as (Ht & Hfl & Ha & Hr & _).
    apply (pagina_In _ _ _ Hf) in He.
    destruct He as [He | [He | He]]; try congruence.
    simpl in He |- *.
    destruct He as [He | [He | [He | [He | [He | [He | []]]]]]];
      try tauto; congruence.
Qed.

Lemma quantidades_detalhe (v : list Linha) :
  quantidades (map detalhe v) = map Quantidade v.
Proof. unfold quantidades. rewrite map_map. reflexivity. Qed.

Lemma soma_filter_limites (f : Linha -> bool) (v : list Linha) :
  Forall (fun q => 0 <= q) (map Quantidade v) ->
  0 <= soma (map Quantidade (filter f v)) <= soma (map Quantidade v).
Proof.
  induction v as [|r v IH]; simpl; intros Hpos; [lia|].
  apply Forall_cons_iff in Hpos. destruct Hpos as [Hr Hpos].
  specialize (IH Hpos). destruct (f r); simpl; lia.
Qed.

(** Without overflow the group sums are integer sums, and they add up to
    the integer sum of the column. *)
Lemma groupby_soma_exata {K} `{Chave K} (key : Linha -> option K)
    (v : list Linha) :
  (forall r, In r v -> key r <> None) ->
  Forall (fun q => 0 <= q) (map Quantidade v) ->
  soma (map Quantidade v) < 2 ^ 63 ->
  soma (map snd (groupby_sum key v)) = soma (map Quantidade v).
Proof.
  intros Hkey Hpos Hlim. unfold groupby_sum. rewrite map_map. simpl.
  rewrite (map_ext _ (fun k => soma (map Quantidade
                                       (filter (tem_chave key k) v)))).
  - apply soma_grupos.
    + apply StronglySorted_menor_NoDup, (grupos_crescente key v).
    + intros r Hr. destruct (key r) as [k|] eqn:Hk.
      * exists k. split; [reflexivity|]. apply grupos_In. eauto.
      * exfalso. now apply (Hkey r Hr).
  - intros k. apply Series_sum_exata.
    pose proof (soma_filter_limites (tem_chave key k) v Hpos). lia.
Qed.

(* ================================================================= *)
(** ** Summary and client distribution *)

(** C7. On every page that shows a summary and a client chart, the sums of
    the chart add up, in the arithmetic of the column, to the total of the
    summary; when the quantities of the detail table are not negative and
    their integer sum fits the column type, both are that integer sum. *)
Theorem C7_clientes_somam_total (fs : SistemaArquivos)
    (widgets : Opcoes -> Selecao) (total : Z) (n : nat)
    (fatias : list (string * Z)) :
  In (Resumo total n) (fst (executar fs widgets)) ->
  In (GraficoCliente fatias) (fst (executar fs widgets)) ->
  Series_sum (map snd fatias) = total
  /\ forall det,
       In (Tabela det) (fst (executar fs widgets)) ->
       Forall (fun q => 0 <= q) (quantidades det) ->
       soma (quantidades det) < 2 ^ 63 ->
       soma (map snd fatias) = soma (quantidades det)
       /\ total = soma (quantidades det).
Proof.
  intros Hres Hcli.
  pose proof (executar_Corrida fs widgets) as Hc.
  destruct (executar fs widgets) as [pg fim]. simpl in Hres, Hcli |- *.
  destruct (Corrida_painel fs widgets pg fim _ Hc Hres eq_refl)
    as (df & ops & Hcarga & Hsort & Hv & Hpainel).
  set (v := df_filtrado (linhas df) (widgets ops)) in *.
  assert (Htexto : forall r, In r v -> Cliente r <> None).
  { intros r Hr. apply (clientes_texto _ df _ Hcarga Hsort).
    unfold v in Hr. rewrite df_filtrado_filter in Hr.
    apply filter_In in Hr. tauto. }
  assert (Htotal : total = total_quantidade v).
  { specialize (Hpainel _ Hres eq_refl). simpl in Hpainel.
    destruct Hpainel as [He | [He | [He | [He | [He | []]]]]];
      try discriminate. now injection He. }
  assert (Hfatias : fatias = df_cliente v).
  { specialize (Hpainel _ Hcli eq_refl). simpl in Hpainel.
    destruct Hpainel as [He | [He | [He | [He | [He | []]]]]];
      try discriminate. now injection He. }
  subst total fatias. split.
  - apply groupby_soma_total. assumption.
  - intros det Hdet Hpos Hlim.
    assert (Hd : det = map detalhe v).
    { specialize (Hpainel _ Hdet eq_refl). simpl in Hpainel.
      destruct Hpainel as [He | [He | [He | [He | [He | []]]]]];
        try discriminate. now injection He. }
    subst det. rewrite quantidades_detalhe in *. split.
    + now apply groupby_soma_exata.
    + unfold total_quantidade. apply Series_sum_exata.
      pose proof (soma_filter_limites (fun _ => true) v Hpos). lia.
Qed.

Lemma C7_clientes_somam_total_witness :
  Series_sum (map snd [("CONVENIO A", 5); ("PARTICULAR", 7)]) = 12
  /\ forall det,
       In (Tabela det) (fst (executar fs_exemplo selecao_padrao)) ->
       Forall (fun q => 0 <= q) (quantidades det) ->
       soma (quantidades det) < 2 ^ 63 ->
       soma (map snd [("CONVENIO A", 5); ("PARTICULAR", 7)])
       = soma (quantidades det)
       /\ 12 = soma (quantidades det).
Proof.
  apply (C7_clientes_somam_total fs_exemplo selecao_padrao 12 3
           [("CONVENIO A", 5); ("PARTICULAR", 7)]);
    vm_compute; intuition.
Defined.




(* ================================================================= *)
(** ** Normalisation at load *)

(** Text cells are normalised alike in both columns. *)
Lemma normaliza_texto (s : string) :
  upper (strip (astype_str (Texto s))) = upper (strip s)
  /\ str_upper (str_strip (Texto s)) = Some (upper (strip s)).
Proof. split; reflexivity. Qed.

(** C3. The procedure column is converted to text before it is stripped
    and upper-cased; the client column is not.  A numeric client column
    makes the load fail where the same procedure column loads as text, and
    an empty client cell stays [NaN] where the empty procedure cell becomes
    the text NAN; the run then stops at the sort of the client options. *)
Theorem C3_cliente_sem_conversao :
  carregar_dados_consolidados fs_codigo ARQUIVO_DADOS
  = (None, [MsgErroCSV AttributeError])
  /\ map upper (map strip (map astype_str [bProcedimento bruta_codigo]))
     = ["7"]
  /\ (exists df,
        carregar_dados_consolidados fs_vazia ARQUIVO_DADOS = (Some df, [])
        /\ map Procedimento (linhas df) = ["CONSULTA"; "NAN"]
        /\ map Cliente (linhas df) = [Some "CONVENIO A"; None])
  /\ snd (executar fs_vazia selecao_padrao) = Falha TypeError.
Proof.
  repeat split. eexists. repeat split.
Qed.

(* ================================================================= *)
(** ** Normal forms of text *)

Lemma isspace_upper_ascii (c : ascii) : isspace (upper_ascii c) = isspace c.
Proof. destruct c as [[] [] [] [] [] [] [] []]; reflexivity. Qed.

Lemma upper_ascii_idem (c : ascii) : upper_ascii (upper_ascii c) = upper_ascii c.
Proof. destruct c as [[] [] [] [] [] [] [] []]; reflexivity. Qed.

Lemma upper_ascii_maiuscula (c : ascii) : eh_minuscula (upper_ascii c) = false.
Proof. destruct c as [[] [] [] [] [] [] [] []]; reflexivity. Qed.

Lemma upper_idem (s : string) : upper (upper s) = upper s.
Proof.
  induction s as [|c s IH]; simpl; [reflexivity|].
  now rewrite upper_ascii_idem, IH.
Qed.

Lemma upper_sem_minuscula (s : string) : tem_minuscula (upper s) = false.
Proof.
  induction s as [|c s IH]; simpl; [reflexivity|].
  now rewrite upper_ascii_maiuscula, IH.
Qed.

Lemma lstrip_upper (s : string) : lstrip (upper s) = upper (lstrip s).
Proof.
  induction s as [|c s IH]; simpl; [reflexivity|].
  rewrite isspace_upper_ascii. destruct (isspace c); [exact IH | reflexivity].
Qed.

Lemma rstrip_upper (s : string) : rstrip (upper s) = upper (rstrip s).
Proof.
  induction s as [|c s IH]; simpl; [reflexivity|].
  rewrite IH. destruct (rstrip s) as [|a t]; simpl; [|reflexivity].
  rewrite isspace_upper_ascii. destruct (isspace c); reflexivity.
Qed.

Lemma strip_upper (s : string) : strip (upper s) = upper (strip s).
Proof. unfold strip. now rewrite lstrip_upper, rstrip_upper. Qed.

Lemma lstrip_primeiro (s : string) (c : ascii) :
  primeiro (lstrip s) = Some c -> isspace c = false.
Proof.
  induction s as [|a s IH]; simpl; [discriminate|].
  destruct (isspace a) eqn:Ha; [exact IH|].
  simpl. intros Hc. injection Hc as <-. exact Ha.
Qed.

Lemma lstrip_fixo (s : string) :
  (forall c, primeiro s = Some c -> isspace c = false) -> lstrip s = s.
Proof.
  destruct s as [|a s]; simpl; intros Hs; [reflexivity|].
  now rewrite (Hs a eq_refl).
Qed.

Lemma rstrip_primeiro (s : string) (c : ascii) :
  (forall a, primeiro s = Some a -> isspace a = false) ->
  primeiro (rstrip s) = Some c -> isspace c = false.
Proof.
  destruct s as [|a s]; simpl; intros Hs; [discriminate|].
  specialize (Hs a eq_refl).
  destruct (rstrip s); [rewrite Hs|]; simpl; intros Hc; now injection Hc as <-.
Qed.

Lemma rstrip_ultimo (s : string) (c : ascii) :
  ultimo (rstrip s) = Some c -> isspace c = false.
Proof.
  induction s as [|a s IH]; simpl; [discriminate|].
  destruct (rstrip s) as [|b t] eqn:Hr.
  - destruct (isspace a) eqn:Ha; simpl; [discriminate|].
    intros Hc. now injection Hc as <-.
  - exact IH.
Qed.

Lemma rstrip_idem (s : string) : rstrip (rstrip s) = rstrip s.
Proof.
  induction s as [|a s IH]; simpl; [reflexivity|].
  destruct (rstrip s) as [|b t] eqn:Hr.
  - destruct (isspace a) eqn:Ha; simpl; [reflexivity|]. now rewrite Ha.
  - change (rstrip (String a (String b t))) with
      (match rstrip (String b t) with
       | EmptyString => if isspace a then EmptyString else String a EmptyString
       | u => String a u
       end).
    now rewrite IH.
Qed.

Lemma strip_idem (s : string) : strip (strip s) = strip s.
Proof.
  unfold strip. rewrite (lstrip_fixo (rstrip (lstrip s))).
  - apply rstrip_idem.
  - intros c. apply rstrip_primeiro. apply lstrip_primeiro.
Qed.

Lemma strip_upper_normalizado (s : string) : normalizado (upper (strip s)).
Proof.
  rewrite <- strip_upper. repeat split.
  - intros c. unfold strip. apply rstrip_primeiro, lstrip_primeiro.
  - intros c. unfold strip. apply rstrip_ultimo.
  - rewrite strip_upper. apply upper_sem_minuscula.
Qed.

Lemma upper_ascii_ascii (c : ascii) :
  (nat_of_ascii (upper_ascii c) <? 128)%nat = (nat_of_ascii c <? 128)%nat.
Proof. destruct c as [[] [] [] [] [] [] [] []]; reflexivity. Qed.

Lemma ascii_puro_upper (s : string) : ascii_puro (upper s) = ascii_puro s.
Proof.
  induction s as [|c s IH]; simpl; [reflexivity|].
  now rewrite upper_ascii_ascii, IH.
Qed.

Lemma ascii_puro_lstrip (s : string) :
  ascii_puro s = true -> ascii_puro (lstrip s) = true.
Proof.
  induction s as [|c s IH]; simpl; [reflexivity|].
  intros Hs. apply andb_true_iff in Hs. destruct Hs as [Hc Hs].
  destruct (isspace c); [now apply IH|]. simpl. now rewrite Hc, Hs.
Qed.

Lemma ascii_puro_rstrip (s : string) :
  ascii_puro s = true -> ascii_puro (rstrip s) = true.
Proof.
  induction s as [|c s IH]; simpl; [reflexivity|].
  intros Hs. apply andb_true_iff in Hs. destruct Hs as [Hc Hs].
  specialize (IH Hs). destruct (rstrip s) as [|b t].
  - destruct (isspace c); simpl; [reflexivity|]. now rewrite Hc.
  - change (ascii_puro (String c (String b t)) = true).
    simpl in IH |- *. now rewrite Hc, IH.
Qed.

Lemma ascii_puro_normalizacao (s : string) :
  ascii_puro s = true -> ascii_puro (upper (strip s)) = true.
Proof.
  intros Hs. rewrite ascii_puro_upper. unfold strip.
  now apply ascii_puro_rstrip, ascii_puro_lstrip.
Qed.

(** X1.  On ASCII text, stripping and upper-casing may be done in either
    order, the result is ASCII text again, and doing both a second time
    changes nothing: a value that went through the loader's normalisation
    is its own normal form. *)
Theorem normalizacao_idempotente (s : string) :
  ascii_puro s = true ->
  strip (upper s) = upper (strip s)
  /\ ascii_puro (upper (strip s)) = true
  /\ upper (strip (upper (strip s))) = upper (strip s).
Proof.
  intros Hs. split; [apply strip_upper|].
  split; [now apply ascii_puro_normalizacao|].
  now rewrite strip_upper, upper_idem, strip_idem.
Qed.

Lemma normalizacao_idempotente_witness :
  strip (upper " consulta ") = upper (strip " consulta ")
  /\ ascii_puro (upper (strip " consulta ")) = true
  /\ upper (strip (upper (strip " consulta "))) = upper (strip " consulta ").
Proof. apply (normalizacao_idempotente " consulta "). reflexivity. Defined.

(* ================================================================= *)
(** ** The loader, row by row *)

Lemma montar_linha_de (bs : list LinhaBruta) (ds : list (option Z)) :
  to_datetime (map bData bs) = Ok ds ->
  map Some
    (montar bs ds
       (map upper (map strip (map astype_str (map bProcedimento bs))))
       (map str_upper (map str_strip (map bCliente bs))))
  = map linha_de bs.
Proof.
  revert ds. induction bs as [|b bs IH]; intros ds Hds; [reflexivity|].
  simpl in Hds. unfold linha_de at 1. simpl map.
  destruct (bData b) as [t | |] eqn:Hb; try discriminate;
    destruct (to_datetime (map bData bs)) as [ds' |]; try discriminate;
    simpl in Hds; injection Hds as <-; simpl; f_equal; now apply IH.
Qed.

Lemma carga_linhas (l : Leitura) (df : DataFrame) :
  carregar_corpo l = Ok df ->
  exists q,
    l = Lido q /\ colunas df = qColunas q
    /\ map Some (linhas df) = map linha_de (qLinhas q)
    /\ tem_coluna "Data" (colunas df) = true
    /\ tem_coluna "Procedimento" (colunas df) = true
    /\ tem_coluna "Cliente" (colunas df) = true.
Proof.
  destruct l as [| m | q]; simpl; try discriminate.
  unfold carregar_corpo, getitem. simpl.
  destruct (tem_coluna "Data" (qColunas q)) eqn:H1; simpl; [|discriminate].
  destruct (to_datetime (map bData (qLinhas q))) as [ds |] eqn:Hds;
    simpl; [|discriminate].
  destruct (tem_coluna "Procedimento" (qColunas q)) eqn:H2; simpl;
    [|discriminate].
  destruct (tem_coluna "Cliente" (qColunas q)) eqn:H3; simpl; [|discriminate].
  pose proof (acessor_str_casos (map bCliente (qLinhas q))) as Hc.
  destruct (cliente_nao_texto (map bCliente (qLinhas q)));
    rewrite Hc; simpl; [discriminate|].
  intros Hdf. injection Hdf as <-. simpl. exists q.
  repeat split; try assumption. now apply montar_linha_de.
Qed.

Lemma carga_linha_In (l : Leitura) (df : DataFrame) (r : Linha) :
  carregar_corpo l = Ok df -> In r (linhas df) ->
  exists q b, l = Lido q /\ In b (qLinhas q) /\ linha_de b = Some r.
Proof.
  intros Hcarga Hr. destruct (carga_linhas l df Hcarga) as (q & -> & _ & Hm & _).
  apply (in_map Some) in Hr. rewrite Hm in Hr.
  apply in_map_iff in Hr. destruct Hr as (b & Hb & Hin). now exists q, b.
Qed.

(** X2.  A file within the model that shows none of the causes of failure
    always loads, and the table is the file row by row: as many rows, in
    file order, each one the image of its own row alone, with year, month
    and quantity as read and procedure and client normalised. *)
Theorem carga_linha_a_linha (q : QuadroBruto) :
  arquivo_modelado q = true ->
  carga_falha (Lido q) = false ->
  exists df,
    carregar_corpo (Lido q) = Ok df
    /\ colunas df = qColunas q
    /\ map Some (linhas df) = map linha_de (qLinhas q).
Proof.
  intros _ Hf. destruct (carregar_corpo (Lido q)) as [df | e] eqn:Hcarga.
  - destruct (carga_linhas _ df Hcarga) as (q' & Hl & Hcols & Hm & _).
    injection Hl as <-. exists df. repeat split; assumption.
  - assert (Hv : carga_falha (Lido q) = true)
      by (apply carga_falha_sse; eauto).
    congruence.
Qed.

Lemma carga_linha_a_linha_witness :
  exists df,
    carregar_corpo
      (Lido {| qColunas := cabecalho; qLinhas := [bruta1; bruta2; bruta3] |})
    = Ok df
    /\ colunas df = cabecalho
    /\ map Some (linhas df) = map linha_de [bruta1; bruta2; bruta3].
Proof.
  apply (carga_linha_a_linha
           {| qColunas := cabecalho; qLinhas := [bruta1; bruta2; bruta3] |});
    reflexivity.
Defined.

Lemma string_of_uint_ascii (u : Decimal.uint) :
  ascii_puro (NilEmpty.string_of_uint u) = true.
Proof. induction u; simpl; assumption || reflexivity. Qed.

Lemma str_int_ascii (z : Z) : ascii_puro (str_int z) = true.
Proof.
  unfold str_int. destruct (Z.to_int z) as [u | u]; simpl;
    destruct u; simpl; try reflexivity; apply string_of_uint_ascii.
Qed.

Lemma astype_str_ascii (c : Celula) :
  celula_ascii c = true -> ascii_puro (astype_str c) = true.
Proof.
  destruct c as [s | z |]; simpl; [tauto | | reflexivity].
  intros _. apply str_int_ascii.
Qed.

(** X3.  In a table loaded from a file within the model every procedure, and
    every client that is text, is ASCII text in normal form: no white space
    at either end and no lower-case letter. *)
Theorem carga_normalizada (q : QuadroBruto) (df : DataFrame) (r : Linha) :
  arquivo_modelado q = true ->
  carregar_corpo (Lido q) = Ok df -> In r (linhas df) ->
  (ascii_puro (Procedimento r) = true /\ normalizado (Procedimento r))
  /\ forall c, Cliente r = Some c -> ascii_puro c = true /\ normalizado c.
Proof.
  intros Hmod Hcarga Hr.
  destruct (carga_linha_In _ df r Hcarga Hr) as (q' & b & Hl & Hin & Hb).
  injection Hl as <-.
  unfold arquivo_modelado in Hmod.
  apply andb_true_iff in Hmod. destruct Hmod as [Hmod _].
  apply andb_true_iff in Hmod. destruct Hmod as [Hp Hc].
  rewrite forallb_forall in Hp, Hc.
  specialize (Hp _ (in_map bProcedimento _ _ Hin)).
  specialize (Hc _ (in_map bCliente _ _ Hin)).
  assert (Hproc : ascii_puro (upper (strip (astype_str (bProcedimento b))))
                  = true).
  { now apply ascii_puro_normalizacao, astype_str_ascii. }
  unfold linha_de in Hb.
  destruct (bData b); try discriminate; injection Hb as <-; simpl;
    (split; [split; [exact Hproc | apply strip_upper_normalizado]|]);
    intros c Hcli; destruct (bCliente b) as [s | |]; try discriminate;
    simpl in Hcli; injection Hcli as <-;
    (split; [now apply ascii_puro_normalizacao
            | apply strip_upper_normalizado]).
Qed.

Lemma carga_normalizada_witness :
  (ascii_puro (Procedimento linha1) = true /\ normalizado (Procedimento linha1))
  /\ forall c, Cliente linha1 = Some c -> ascii_puro c = true /\ normalizado c.
Proof.
  apply (carga_normalizada
           {| qColunas := cabecalho; qLinhas := [bruta1; bruta2; bruta3] |}
           {| colunas := cabecalho; linhas := tabela_exemplo |} linha1).
  - reflexivity.
  - reflexivity.
  - simpl. tauto.
Defined.

Lemma FileNotFoundError_origem (l : Leitura) :
  carregar_corpo l = Levanta FileNotFoundError -> l = NaoEncontrado.
Proof.
  destruct l as [| m | q]; simpl; try reflexivity; try discriminate.
  unfold carregar_corpo, getitem. simpl.
  destruct (tem_coluna "Data" (qColunas q)); simpl; [|discriminate].
  pose proof (to_datetime_casos (map bData (qLinhas q))) as Hd.
  destruct (existsb data_ilegivel (map bData (qLinhas q)));
    [rewrite Hd; discriminate|].
  destruct Hd as [ds [-> _]]. simpl.
  destruct (tem_coluna "Procedimento" (qColunas q)); simpl; [|discriminate].
  destruct (tem_coluna "Cliente" (qColunas q)); simpl; [|discriminate].
  pose proof (acessor_str_casos (map bCliente (qLinhas q))) as Hc.
  destruct (cliente_nao_texto (map bCliente (qLinhas q)));
    rewrite Hc; simpl; discriminate.
Qed.

(** X4.  The loader returns either a table and no message, or no table and
    exactly one message; the message is the file-not-found one, naming the
    path, exactly when the file is missing, and the generic one carrying the
    exception for every other failure. *)
Theorem carga_mensagens (fs : SistemaArquivos) (caminho : string) :
  ((exists df, carregar_dados_consolidados fs caminho = (Some df, []))
   \/ (exists m, carregar_dados_consolidados fs caminho = (None, [m])))
  /\ (forall p, carregar_dados_consolidados fs caminho
                = (None, [MsgNaoEncontrado p])
                <-> fs caminho = NaoEncontrado /\ p = caminho)
  /\ (forall e, carregar_dados_consolidados fs caminho = (None, [MsgErroCSV e])
                <-> carregar_corpo (fs caminho) = Levanta e
                    /\ fs caminho <> NaoEncontrado).
Proof.
  unfold carregar_dados_consolidados.
  destruct (carregar_corpo (fs caminho)) as [df | e] eqn:Hcarga.
  - split; [left; eauto|]. split; intros x; split;
      try discriminate; intros [H1 H2]; try discriminate.
    rewrite H1 in Hcarga. discriminate.
  - split; [right; destruct e; eauto|].
    split; intros x; split.
    + destruct e; intros Heq; try discriminate.
      injection Heq as <-. split; [|reflexivity].
      now apply FileNotFoundError_origem.
    + intros [H1 ->]. rewrite H1 in Hcarga. simpl in Hcarga.
      injection Hcarga as <-. reflexivity.
    + destruct e; intros Heq; try discriminate; injection Heq as <-;
        (split; [reflexivity|]); intros H1; rewrite H1 in Hcarga;
        discriminate.
    + intros [Heq Hnf]. injection Heq as ->.
      destruct x; try reflexivity.
      apply FileNotFoundError_origem in Hcarga. contradiction.
Qed.

(* ================================================================= *)
(** ** The sidebar options *)

Section ChaveDecrescente.
Context {K : Type} `{Chave K}.

Lemma chave_gtb_menor (a b : K) : chave_gtb a b = true <-> menor b a.
Proof.
  unfold chave_gtb, menor. rewrite (comparar_antisym a b).
  destruct (comparar a b); simpl; split; congruence.
Qed.

Lemma sorted_reverse_decrescente (l : list K) :
  NoDup l -> StronglySorted (fun a b => menor b a) (sorted_reverse l).
Proof.
  intros Hnd. unfold sorted_reverse.
  apply StronglySorted_impl with (R := precede chave_gtb (fun a b => a <> b)).
  - intros a b _ _ [Hab | [Hba Hneq]]; [now apply chave_gtb_menor|].
    destruct (menor_total a b) as [Hlt | [Heq | Hgt]];
      [|contradiction | assumption].
    apply chave_gtb_menor in Hlt. congruence.
  - apply ordenar_ordenada.
    + intros a b Hab. destruct (chave_gtb b a) eqn:Hba; [|reflexivity].
      apply chave_gtb_menor in Hab, Hba. now apply menor_assim in Hab.
    + intros a b c. rewrite !chave_gtb_menor. intros Hca.
      destruct (menor_total b a) as [Hba | [-> | Hab]];
        [now left | now right|].
      right. now apply menor_trans with a.
    + now apply NoDup_StronglySorted_neq.
Qed.
End ChaveDecrescente.

Lemma inserir_opt_map (x : string) (l : list string) :
  inserir opt_ltb (Some x) (map Some l) = map Some (inserir chave_ltb x l).
Proof.
  induction l as [|y l IH]; simpl; [reflexivity|].
  destruct (chave_ltb y x); simpl; [now rewrite IH | reflexivity].
Qed.

Lemma ordenar_opt_map (l : list string) :
  ordenar opt_ltb (map Some l) = map Some (sorted l).
Proof.
  unfold sorted. induction l as [|x l IH]; simpl; [reflexivity|].
  now rewrite IH, inserir_opt_map.
Qed.

Lemma so_textos (cs : list (option string)) :
  existsb eh_nan cs = false -> exists l, cs = map Some l.
Proof.
  induction cs as [|[c|] cs IH]; simpl; intros Hcs.
  - now exists [].
  - destruct (IH Hcs) as [l ->]. now exists (c :: l).
  - discriminate.
Qed.

Lemma so_nan (cs : list (option string)) :
  existsb (fun c => negb (eh_nan c)) cs = false -> NoDup cs ->
  cs = [] \/ cs = [None].
Proof.
  destruct cs as [|[c|] cs]; simpl; intros Hcs Hnd;
    [now left | discriminate|].
  right. destruct cs as [|[c'|] cs]; [reflexivity | discriminate|].
  apply NoDup_cons_iff in Hnd. simpl in Hnd. tauto.
Qed.

(** X5.  When the sidebar completes, each list of options holds exactly the
    values present in its column of the table; years come strictly
    descending, months and procedures strictly ascending, so no option is
    offered twice; the client options are text in strictly ascending order
    (or the single missing value, on a column that has no text at all). *)
Theorem opcoes_ordenadas (df : DataFrame) (pg pg' : Pagina) (ops : Opcoes) :
  opcoes df pg = (pg', inl ops) ->
  ((forall a, In a (anos_disponiveis ops) <-> In a (map Ano (linhas df)))
   /\ StronglySorted (fun a b => b < a) (anos_disponiveis ops))
  /\ ((forall m, In m (meses_disponiveis ops) <-> In m (map Mes (linhas df)))
      /\ StronglySorted Z.lt (meses_disponiveis ops))
  /\ ((forall p, In p (procedimentos_disponiveis ops)
                 <-> In p (map Procedimento (linhas df)))
      /\ StronglySorted (fun a b => String.compare a b = Lt)
           (procedimentos_disponiveis ops))
  /\ ((forall c, In c (clientes_disponiveis ops)
                 <-> In c (map Cliente (linhas df)))
      /\ ((exists cs, clientes_disponiveis ops = map Some cs
                      /\ StronglySorted (fun a b => String.compare a b = Lt) cs)
          \/ clientes_disponiveis ops = [None])).
Proof.
  intros Hops. destruct (opcoes_presentes df pg pg' ops Hops)
    as (Ha & Hm & Hp & Hc).
  revert Hops. unfold opcoes, seguir, chamar, st, getitem, retornar.
  destruct (tem_coluna "Ano" (colunas df)); simpl; [|discriminate].
  destruct (tem_coluna "Mes" (colunas df)); simpl; [|discriminate].
  destruct (tem_coluna "Procedimento" (colunas df)); simpl; [|discriminate].
  destruct (tem_coluna "Cliente" (colunas df)); simpl; [|discriminate].
  unfold sorted_clientes.
  destruct (existsb eh_nan (unique opt_eqb (map Cliente (linhas df))))
    eqn:Hnan;
    destruct (existsb (fun c => negb (eh_nan c))
                (unique opt_eqb (map Cliente (linhas df)))) eqn:Htxt;
    simpl; try discriminate;
    intros Hops; injection Hops as _ <-; simpl in *;
    (split; [split; [exact Ha|];
             exact (sorted_reverse_decrescente (K := Z) _
                      (unique_NoDup _ Z.eqb_eq _))|]);
    (split; [split; [exact Hm|];
             exact (sorted_crescente (K := Z) _ (unique_NoDup _ Z.eqb_eq _))|]);
    (split; [split; [exact Hp|];
             exact (sorted_crescente (K := string) _
                      (unique_NoDup _ String.eqb_eq _))|]);
    (split; [exact Hc|]).
  - right.
    destruct (so_nan _ Htxt (unique_NoDup _ opt_eqb_eq _)) as [Hu | Hu];
      rewrite Hu in *; [discriminate Hnan | reflexivity].
  - left. destruct (so_textos _ Hnan) as [l Hl]. rewrite Hl.
    exists (sorted l). split; [apply ordenar_opt_map|].
    refine (sorted_crescente (K := string) _ _).
    apply (NoDup_map_inv Some). rewrite <- Hl.
    apply unique_NoDup, opt_eqb_eq.
  - left. destruct (so_textos _ Hnan) as [l Hl]. rewrite Hl.
    exists (sorted l). split; [apply ordenar_opt_map|].
    refine (sorted_crescente (K := string) _ _).
    apply (NoDup_map_inv Some). rewrite <- Hl.
    apply unique_NoDup, opt_eqb_eq.
Qed.

Lemma opcoes_ordenadas_witness :
  StronglySorted (fun a b => b < a) (anos_disponiveis ops_exemplo).
Proof.
  apply (opcoes_ordenadas df_exemplo [] filtros_exemplo ops_exemplo).
  reflexivity.
Defined.

(** X6.  With every widget at its default, that is every option selected,
    the view is the whole table. *)
Theorem selecao_padrao_mostra_tudo (df : DataFrame) (pg pg' : Pagina)
    (ops : Opcoes) :
  opcoes df pg = (pg', inl ops) ->
  df_filtrado (linhas df) (selecao_padrao ops) = linhas df.
Proof.
  intros Hops. apply opcoes_presentes in Hops.
  destruct Hops as (Ha & Hm & Hp & Hc).
  apply filtro_total. intros r Hr. simpl.
  rewrite Ha, Hm, Hp, Hc. repeat split; now apply in_map.
Qed.

Lemma selecao_padrao_mostra_tudo_witness :
  df_filtrado (linhas df_exemplo) (selecao_padrao ops_exemplo)
  = linhas df_exemplo.
Proof.
  apply (selecao_padrao_mostra_tudo df_exemplo [] filtros_exemplo ops_exemplo).
  reflexivity.
Defined.

(* ================================================================= *)
(** ** Filters compose *)

Lemma filter_troca {A} (f g : A -> bool) (l : list A) :
  filter f (filter g l) = filter g (filter f l).
Proof.
  induction l as [|x l IH]; simpl; [reflexivity|].
  destruct (g x) eqn:Hg, (f x) eqn:Hf; simpl; rewrite ?Hg, ?Hf, IH;
    reflexivity.
Qed.

Lemma filter_estreita {A} (f g : A -> bool) (l : list A) :
  (forall x, f x = true -> g x = true) ->
  filter f (filter g l) = filter f l.
Proof.
  intros Hfg. induction l as [|x l IH]; simpl; [reflexivity|].
  destruct (g x) eqn:Hg, (f x) eqn:Hf; simpl; rewrite ?Hf, IH;
    try reflexivity.
  apply Hfg in Hf. congruence.
Qed.

Lemma contida_selecionada (s1 s2 : Selecao) (r : Linha) :
  contida s1 s2 -> selecionada s1 r = true -> selecionada s2 r = true.
Proof.
  intros (Ha & Hm & Hp & Hc). rewrite !selecionada_spec.
  intros (H1 & H2 & H3 & H4). repeat split; auto.
Qed.

(** X7.  Two selections applied one after the other give the same view in
    either order.  When every value selected in the second is selected in
    the first, filtering by the first and then by the second is filtering
    by the second alone, and that narrower view is a sub-list, in order,
    of the wider one. *)
Theorem filtros_compoem (rows : list Linha) (s1 s2 : Selecao) :
  df_filtrado (df_filtrado rows s1) s2 = df_filtrado (df_filtrado rows s2) s1
  /\ (contida s2 s1 ->
      df_filtrado (df_filtrado rows s1) s2 = df_filtrado rows s2
      /\ Sublista (df_filtrado rows s2) (df_filtrado rows s1)).
Proof.
  rewrite !df_filtrado_filter. split; [apply filter_troca|].
  intros Hc.
  assert (Heq : filter (selecionada s2) (filter (selecionada s1) rows)
                = filter (selecionada s2) rows).
  { apply filter_estreita. intros r. now apply contida_selecionada. }
  split; [exact Heq|]. rewrite <- Heq. apply Sublista_filter.
Qed.

Lemma filtros_compoem_witness :
  df_filtrado (df_filtrado tabela_exemplo sel_tudo) sel_2024
  = df_filtrado tabela_exemplo sel_2024
  /\ Sublista (df_filtrado tabela_exemplo sel_2024)
       (df_filtrado tabela_exemplo sel_tudo).
Proof.
  apply (proj2 (filtros_compoem tabela_exemplo sel_tudo sel_2024)).
  unfold contida, incl; simpl; intuition.
Defined.

(** X8.  A view never has more rows than the table.  When no quantity is
    negative the sum over the view is at most the sum over the table, and
    when the sum over the table fits the column type the total shown for
    the view is between 0 and the total of the table. *)
Theorem vista_limitada (rows : list Linha) (sel : Selecao) :
  (num_registros (df_filtrado rows sel) <= num_registros rows)%nat
  /\ (Forall (fun q => 0 <= q) (map Quantidade rows) ->
      0 <= soma (map Quantidade (df_filtrado rows sel))
        <= soma (map Quantidade rows)
      /\ (soma (map Quantidade rows) < 2 ^ 63 ->
          0 <= total_quantidade (df_filtrado rows sel)
            <= total_quantidade rows)).
Proof.
  rewrite df_filtrado_filter. split.
  - unfold num_registros. apply filter_length_le.
  - intros Hpos.
    pose proof (soma_filter_limites (selecionada sel) rows Hpos) as Hlim.
    split; [exact Hlim|]. intros Hmax. unfold total_quantidade.
    rewrite !Series_sum_exata; lia.
Qed.

(* ================================================================= *)
(** ** More on the aggregations *)

Section GroupBySemChave.
Context {K : Type} `{Chave K}.
Variable key : Linha -> option K.

Lemma chaves_com_chave (v : list Linha) :
  chaves key (filter (com_chave key) v) = chaves key v.
Proof.
  induction v as [|r v IH]; simpl; [reflexivity|].
  unfold com_chave at 1. destruct (key r) as [k|] eqn:Hr; simpl;
    rewrite ?Hr, IH; reflexivity.
Qed.

Lemma grupo_com_chave (k : K) (v : list Linha) :
  filter (tem_chave key k) (filter (com_chave key) v) = filter (tem_chave key k) v.
Proof.
  apply filter_estreita. intros r. unfold tem_chave, com_chave.
  destruct (key r); [reflexivity | discriminate].
Qed.

(** Rows without a key do not count: grouping sees the keyed rows only. *)
Lemma groupby_com_chave (v : list Linha) :
  groupby_sum key (filter (com_chave key) v) = groupby_sum key v.
Proof.
  unfold groupby_sum. rewrite chaves_com_chave.
  apply map_ext. intros k. now rewrite grupo_com_chave.
Qed.

Lemma groupby_soma_com_chave (v : list Linha) :
  Series_sum (map snd (groupby_sum key v))
  = Series_sum (map Quantidade (filter (com_chave key) v)).
Proof.
  rewrite <- groupby_com_chave. apply groupby_soma_total.
  intros r Hr. apply filter_In in Hr. destruct Hr as [_ Hr].
  unfold com_chave in Hr. destruct (key r); [discriminate | discriminate].
Qed.
End GroupBySemChave.

(** X9.  The points of the time series add up to the sum of the quantities
    of the rows that have a date: a row whose date is missing is in no point.
    When every row of the view has a date the points add up to the total of
    the summary. *)
Theorem evolucao_soma (v : list Linha) :
  Series_sum (map snd (df_evolucao v))
  = Series_sum (map Quantidade (filter tem_data v))
  /\ ((forall r, In r v -> Data r <> None) ->
      Series_sum (map snd (df_evolucao v)) = total_quantidade v).
Proof.
  split.
  - unfold df_evolucao. rewrite groupby_soma_com_chave. reflexivity.
  - intros Hd. now apply groupby_soma_total.
Qed.

Lemma StronglySorted_app_l {A} (R : A -> A -> Prop) (l1 l2 : list A) :
  StronglySorted R (l1 ++ l2) -> StronglySorted R l1.
Proof.
  induction l1 as [|x l1 IH]; simpl; intros Hs; [constructor|].
  apply StronglySorted_inv in Hs. destruct Hs as [Hs Hx].
  constructor; [now apply IH|].
  apply Forall_app in Hx. tauto.
Qed.

(** X10.  The procedure totals, before the cut, add up to the total of the
    summary.  The cut keeps the groups in descending order of their sums
    and keeps no procedure twice; when the view has at most ten procedures
    it drops none of them. *)
Theorem top_proc_completo (v : list Linha) :
  Series_sum (map snd (soma_por_procedimento v)) = total_quantidade v
  /\ StronglySorted (fun a b => snd b <= snd a) (df_top_proc v)
  /\ NoDup (map fst (df_top_proc v))
  /\ ((List.length (soma_por_procedimento v) <= 10)%nat ->
      Permutation (soma_por_procedimento v) (df_top_proc v)).
Proof.
  unfold df_top_proc. fold (soma_por_procedimento v).
  split; [|split; [|split]].
  - apply groupby_soma_total. discriminate.
  - unfold nlargest.
    pose proof (nlargest_ordenada (soma_por_procedimento v)
                  (groupby_crescente _ v)) as Hs.
    rewrite <- (firstn_skipn 10) in Hs. apply StronglySorted_app_l in Hs.
    eapply StronglySorted_impl; [|exact Hs].
    intros a b _ _ [Hlt | [Heq _]]; lia.
  - unfold nlargest. rewrite <- firstn_map.
    assert (Hnd : NoDup (map fst (ordenar maior_soma
                                    (soma_por_procedimento v)))).
    { eapply Permutation_NoDup.
      - apply Permutation_map, ordenar_Permutation.
      - unfold soma_por_procedimento. rewrite groupby_chaves.
        apply StronglySorted_menor_NoDup, grupos_crescente. }
    rewrite <- (firstn_skipn 10) in Hnd.
    now apply NoDup_app_remove_r in Hnd.
  - intros Hlen. unfold nlargest. rewrite firstn_all2.
    + apply ordenar_Permutation.
    + erewrite <- Permutation_length; [exact Hlen|].
      apply ordenar_Permutation.
Qed.




(* ================================================================= *)
(** ** Runs *)

Lemma executar_carregado (fs : SistemaArquivos) (widgets : Opcoes -> Selecao)
    (df : DataFrame) :
  carregar_corpo (fs ARQUIVO_DADOS) = Ok df ->
  executar fs widgets
  = match opcoes df [Titulo] with
    | (pg, inl ops) =>
        match area_principal (colunas df)
                (df_filtrado (linhas df) (widgets ops)) pg with
        | (pg', inl _) => (pg' ++ [Rodape], Completo)
        | (pg', inr f) => (pg', f)
        end
    | (pg, inr f) => (pg, f)
    end.
Proof.
  intros Hcarga.
  unfold executar, dashboard, seguir, carregar, carregar_dados_consolidados.
  rewrite Hcarga. cbn [map app]. unfold st at 1. cbn [app].
  destruct (opcoes df [Titulo]) as [pg [ops | f]]; [|reflexivity].
  destruct (area_principal (colunas df)
              (df_filtrado (linhas df) (widgets ops)) pg) as [pg' [[] | f]];
    reflexivity.
Qed.

Lemma sorted_clientes_erro (cs : list (option string)) (e : Excecao) :
  sorted_clientes cs = Levanta e -> e = TypeError.
Proof.
  unfold sorted_clientes.
  destruct (existsb eh_nan cs && existsb (fun c => negb (eh_nan c)) cs);
    intros He; [now injection He | discriminate].
Qed.

(** X12.  A file without the [Ano] column loads, and the run then ends on
    the uncaught [KeyError] of line 46 with the title alone on the page;
    without [Mes] it ends on line 54 after the year filter.  Without
    [Quantidade] no summary, chart or table is ever shown. *)
Theorem colunas_numericas_ausentes (fs : SistemaArquivos)
    (widgets : Opcoes -> Selecao) (df : DataFrame) :
  carregar_corpo (fs ARQUIVO_DADOS) = Ok df ->
  (tem_coluna "Ano" (colunas df) = false ->
   executar fs widgets = ([Titulo], Falha (KeyError "Ano")))
  /\ (tem_coluna "Ano" (colunas df) = true ->
      tem_coluna "Mes" (colunas df) = false ->
      executar fs widgets
      = ([Titulo;
          FiltroAnos (sorted_reverse (unique Z.eqb (map Ano (linhas df))))],
         Falha (KeyError "Mes")))
  /\ (tem_coluna "Quantidade" (colunas df) = false ->
      forall e, In e (fst (executar fs widgets)) -> do_painel e = false).
Proof.
  intros Hcarga. rewrite (executar_carregado fs widgets df Hcarga).
  split; [|split].
  - intros Ha. unfold opcoes, seguir, chamar, getitem. rewrite Ha.
    reflexivity.
  - intros Ha Hm. unfold opcoes, seguir, chamar, getitem, st.
    rewrite Ha, Hm. reflexivity.
  - intros Hq e.
    destruct (opcoes_casos df [Titulo]) as (filtros & r & -> & Hf & _ & _).
    assert (Hbarra : In e ([Titulo] ++ filtros) -> do_painel e = false).
    { intros [<- | He]; [reflexivity|].
      apply (filtro_na_barra _ _ Hf) in He. now destruct e. }
    destruct r as [ops | f]; [|exact Hbarra].
    destruct (df_filtrado (linhas df) (widgets ops)) as [|r0 v0] eqn:Hv.
    + rewrite area_principal_vazia. simpl fst. intros [<- | He];
        [reflexivity|].
      apply in_app_or in He. destruct He as [He | [<- | []]]; [|reflexivity].
      apply in_app_or in He. destruct He as [He | [<- | []]]; [|reflexivity].
      apply Hbarra. now right.
    + rewrite area_principal_sem_quantidade by (assumption || discriminate).
      exact Hbarra.
Qed.

Lemma colunas_numericas_ausentes_witness :
  executar fs_sem_ano selecao_padrao = ([Titulo], Falha (KeyError "Ano")).
Proof.
  apply (colunas_numericas_ausentes fs_sem_ano selecao_padrao
           {| colunas := ["Data"; "Mes"; "Cliente"; "Procedimento";
                          "Quantidade"];
              linhas := tabela_exemplo |});
    reflexivity.
Defined.

(** X13.  A table in which some row has no client text never gets past the
    sidebar: the sort of the client options raises [TypeError], after the
    year, month and procedure filters and before any summary, chart, table
    or warning. *)
Theorem cliente_ausente_interrompe (fs : SistemaArquivos)
    (widgets : Opcoes -> Selecao) (df : DataFrame) (r : Linha) :
  carregar_corpo (fs ARQUIVO_DADOS) = Ok df ->
  tem_coluna "Ano" (colunas df) = true ->
  tem_coluna "Mes" (colunas df) = true ->
  In r (linhas df) -> Cliente r = None ->
  executar fs widgets
  = ([Titulo;
      FiltroAnos (sorted_reverse (unique Z.eqb (map Ano (linhas df))));
      FiltroMeses (sorted (unique Z.eqb (map Mes (linhas df))));
      FiltroProcedimentos
        (sorted (unique String.eqb (map Procedimento (linhas df))))],
     Falha TypeError).
Proof.
  intros Hcarga Ha Hm Hr Hnan.
  rewrite (executar_carregado fs widgets df Hcarga).
  destruct (carga_linhas _ df Hcarga) as (q & _ & _ & _ & _ & Hp & Hc).
  unfold opcoes, seguir, chamar, getitem, st. rewrite Ha, Hm, Hp, Hc.
  cbn [ligar app].
  destruct (sorted_clientes (unique opt_eqb (map Cliente (linhas df))))
    as [cs | e] eqn:Hs.
  - exfalso. exact (clientes_texto _ df cs Hcarga Hs r Hr Hnan).
  - apply sorted_clientes_erro in Hs. subst e. reflexivity.
Qed.

Lemma cliente_ausente_interrompe_witness :
  executar fs_vazia selecao_padrao
  = ([Titulo; FiltroAnos [2024; 2023]; FiltroMeses [1; 2];
      FiltroProcedimentos ["CONSULTA"; "NAN"]],
     Falha TypeError).
Proof.
  apply (cliente_ausente_interrompe fs_vazia selecao_padrao
           {| colunas := cabecalho;
              linhas := [linha1;
                         {| Data := Some 20240106; Ano := 2023; Mes := 2;
                            Cliente := None; Procedimento := "NAN";
                            Quantidade := 7 |}] |}
           {| Data := Some 20240106; Ano := 2023; Mes := 2;
              Cliente := None; Procedimento := "NAN"; Quantidade := 7 |});
    try reflexivity.
  simpl. tauto.
Defined.

(** X14.  A file that has its header and no row loads as an empty table: the
    four filters have no option, the page shows the warning, and the run
    completes; the [Quantidade] column is not even looked up. *)
Theorem arquivo_sem_linhas (fs : SistemaArquivos)
    (widgets : Opcoes -> Selecao) (cols : list string) :
  fs ARQUIVO_DADOS = Lido {| qColunas := cols; qLinhas := [] |} ->
  tem_coluna "Data" cols = true ->
  tem_coluna "Ano" cols = true ->
  tem_coluna "Mes" cols = true ->
  tem_coluna "Cliente" cols = true ->
  tem_coluna "Procedimento" cols = true ->
  executar fs widgets
  = ([Titulo; FiltroAnos []; FiltroMeses []; FiltroProcedimentos [];
      FiltroClientes []; Aviso; Rodape], Completo).
Proof.
  intros Hfs Hd Ha Hm Hc Hp.
  assert (Hcarga : carregar_corpo (fs ARQUIVO_DADOS)
                   = Ok {| colunas := cols; linhas := [] |}).
  { rewrite Hfs. unfold carregar_corpo, getitem. simpl.
    rewrite Hd. simpl. rewrite Hp. simpl. rewrite Hc. reflexivity. }
  rewrite (executar_carregado fs widgets _ Hcarga).
  unfold opcoes, seguir, chamar, getitem, st. simpl.
  rewrite Ha, Hm, Hp, Hc. reflexivity.
Qed.

Lemma arquivo_sem_linhas_witness :
  executar (fun _ => Lido {| qColunas := cabecalho; qLinhas := [] |})
    selecao_padrao
  = ([Titulo; FiltroAnos []; FiltroMeses []; FiltroProcedimentos [];
      FiltroClientes []; Aviso; Rodape], Completo).
Proof.
  apply (arquivo_sem_linhas
           (fun _ => Lido {| qColunas := cabecalho; qLinhas := [] |})
           selecao_padrao cabecalho); reflexivity.
Defined.

(** X15.  On a page that shows the summary and the detail table, the number
    of records of the summary is the number of rows of the table, and the
    total of the summary is the column sum of the table's quantities. *)
Theorem resumo_confere_com_tabela (fs : SistemaArquivos)
    (widgets : Opcoes -> Selecao) (total : Z) (n : nat)
    (det : list (Z * Z * option string * string * Z * option Z)) :
  In (Resumo total n) (fst (executar fs widgets)) ->
  In (Tabela det) (fst (executar fs widgets)) ->
  n = List.length det /\ total = Series_sum (quantidades det).
Proof.
  intros Hres Hdet.
  pose proof (executar_Corrida fs widgets) as Hc.
  destruct (executar fs widgets) as [pg fim]. simpl in Hres, Hdet.
  destruct (Corrida_painel fs widgets pg fim _ Hc Hres eq_refl)
    as (df & ops & _ & _ & _ & Hpainel).
  pose proof (Hpainel _ Hres eq_refl) as H1.
  pose proof (Hpainel _ Hdet eq_refl) as H2.
  simpl in H1, H2.
  destruct H1 as [H1 | [H1 | [H1 | [H1 | [H1 | []]]]]]; try discriminate.
  destruct H2 as [H2 | [H2 | [H2 | [H2 | [H2 | []]]]]]; try discriminate.
  injection H1 as <- <-. injection H2 as <-.
  rewrite quantidades_detalhe. unfold num_registros.
  now rewrite length_map.
Qed.

Lemma resumo_confere_com_tabela_witness :
  3%nat = List.length (map detalhe tabela_exemplo)
  /\ 12 = Series_sum (quantidades (map detalhe tabela_exemplo)).
Proof.
  apply (resumo_confere_com_tabela fs_exemplo selecao_padrao 12 3
           (map detalhe tabela_exemplo));
    vm_compute; intuition.
Defined.

(** X16.  How a page and the end of its run go together: an error message
    is on the page exactly when the run was stopped, and it is then the
    whole page; the footer is there exactly when the run completed; the
    warning and the summary, charts or table never share a page; and a
    summary, chart or table is only ever on the page of a completed run. *)
Theorem pagina_coerente (fs : SistemaArquivos) (widgets : Opcoes -> Selecao) :
  (snd (executar fs widgets) = Interrompido
   <-> exists m, fst (executar fs widgets) = [Erro m])
  /\ (forall m, In (Erro m) (fst (executar fs widgets)) ->
                snd (executar fs widgets) = Interrompido)
  /\ (snd (executar fs widgets) = Completo
      <-> In Rodape (fst (executar fs widgets)))
  /\ (In Aviso (fst (executar fs widgets)) ->
      forall e, In e (fst (executar fs widgets)) -> do_painel e = false)
  /\ (forall e, In e (fst (executar fs widgets)) -> do_painel e = true ->
                snd (executar fs widgets) = Completo).
Proof.
  pose proof (executar_Corrida fs widgets) as Hc.
  destruct (executar fs widgets) as [pg fim]. simpl.
  assert (Hfiltro : forall filtros resto e,
             forallb eh_filtro filtros = true ->
             In e (Titulo :: filtros ++ resto) ->
             eh_filtro e = false -> e <> Titulo -> In e resto).
  { intros filtros resto e Hf He Hnf Hnt.
    apply (pagina_In _ _ _ Hf) in He.
    destruct He as [He | [He | He]]; congruence. }
  inversion Hc as [m Hcarga | df filtros ex Hcarga Hf
                   | df filtros ops Hcarga Hf Hs Hv
                   | df filtros ops Hcarga Hf Hs Hv]; subst pg fim.
  - repeat split; try discriminate; eauto.
    + intros [H | []]; discriminate.
    + intros [H | []]; discriminate.
    + intros e [<- | []] He; discriminate.
  - rewrite <- (app_nil_r filtros).
    repeat split; try discriminate.
    + intros [m Hm]. discriminate.
    + intros m Hm. apply Hfiltro in Hm; easy.
    + intros Hr. apply Hfiltro in Hr; easy.
    + intros Ha. apply Hfiltro in Ha; easy.
    + intros e He Hp. apply Hfiltro in He; try easy; now destruct e.
  - repeat split; try discriminate.
    + intros [m Hm]. discriminate.
    + intros m Hm. apply Hfiltro in Hm; try easy.
      destruct Hm as [Hm | [Hm | []]]; discriminate.
    + intros _. right. apply in_or_app. right. simpl. tauto.
    + intros _ e [<- | He]; [reflexivity|].
      apply in_app_or in He. destruct He as [He | [<- | [<- | []]]];
        try reflexivity.
      apply (filtro_na_barra _ _ Hf) in He. now destruct e.
  - repeat split; try discriminate.
    + intros [m Hm]. discriminate.
    + intros m Hm. apply Hfiltro in Hm; try easy. simpl in Hm.
      repeat (destruct Hm as [Hm | Hm]; [discriminate|]). contradiction.
    + intros _. right. apply in_or_app. right. simpl. tauto.
    + intros Ha. apply Hfiltro in Ha; try easy. simpl in Ha.
      repeat (destruct Ha as [Ha | Ha]; [discriminate|]). contradiction.
Qed.

(* ================================================================= *)
(** ** Normal forms are the fixed points *)

Lemma rstrip_fixo (s : string) :
  (forall c, ultimo s = Some c -> isspace c = false) -> rstrip s = s.
Proof.
  induction s as [|a s IH]; [reflexivity|].
  destruct s as [|b t].
  - intros Hs. simpl. now rewrite (Hs a eq_refl).
  - intros Hs. change (rstrip (String a (String b t))) with
      (match rstrip (String b t) with
       | EmptyString => if isspace a then EmptyString else String a EmptyString
       | u => String a u
       end).
    rewrite IH; [reflexivity|]. exact Hs.
Qed.

Lemma upper_fixo (s : string) : tem_minuscula s = false -> upper s = s.
Proof.
  induction s as [|c s IH]; simpl; [reflexivity|].
  intros Hs. apply orb_false_iff in Hs. destruct Hs as [Hc Hs].
  rewrite (IH Hs). f_equal. unfold upper_ascii.
  unfold eh_minuscula in Hc. now rewrite Hc.
Qed.

Lemma lstrip_decompoe (s : string) :
  exists pre, s = (pre ++ lstrip s)%string /\ so_espacos pre = true.
Proof.
  induction s as [|c s IH]; simpl.
  - now exists EmptyString.
  - destruct (isspace c) eqn:Hc.
    + destruct IH as [pre [Hs Hpre]]. exists (String c pre). simpl.
      rewrite Hc, Hpre. split; [now rewrite <- Hs | reflexivity].
    + now exists EmptyString.
Qed.

Lemma rstrip_decompoe (s : string) :
  exists post, s = (rstrip s ++ post)%string /\ so_espacos post = true.
Proof.
  induction s as [|c s IH]; simpl.
  - now exists EmptyString.
  - destruct IH as [post [Hs Hpost]].
    destruct (rstrip s) as [|b t] eqn:Hr.
    + simpl in Hs. subst post. destruct (isspace c) eqn:Hc.
      * exists (String c s). simpl. now rewrite Hc, Hpost.
      * exists s. now split.
    + exists post. split; [|assumption].
      change (String c s = String c (String b t ++ post)%string).
      now f_equal.
Qed.

(** X17.  On ASCII text the normal forms are exactly the values the
    normalisation leaves as they are; and stripping takes away nothing but
    white space, at the two ends: the value is the stripped text between
    two runs of white space. *)
Theorem forma_normal (s : string) :
  ascii_puro s = true ->
  (normalizado s <-> upper (strip s) = s)
  /\ exists pre post,
       s = (pre ++ strip s ++ post)%string
       /\ so_espacos pre = true /\ so_espacos post = true.
Proof.
  intros _. split.
  - split.
    + intros (Hp & Hu & Hm). unfold strip.
      rewrite (lstrip_fixo s Hp), (rstrip_fixo s Hu). now apply upper_fixo.
    + intros <-. apply strip_upper_normalizado.
  - destruct (lstrip_decompoe s) as [pre [Hs Hpre]].
    destruct (rstrip_decompoe (lstrip s)) as [post [Hl Hpost]].
    exists pre, post. unfold strip. rewrite <- Hl. now split.
Qed.

Lemma forma_normal_witness :
  (normalizado " consulta " <-> upper (strip " consulta ") = " consulta ")
  /\ exists pre post,
       " consulta " = (pre ++ strip " consulta " ++ post)%string
       /\ so_espacos pre = true /\ so_espacos post = true.
Proof. apply (forma_normal " consulta "). reflexivity. Defined.

(* ================================================================= *)
(** ** Load failures, exactly *)

Lemma carregado_sem_erro (fs : SistemaArquivos) (widgets : Opcoes -> Selecao)
    (df : DataFrame) :
  carregar_corpo (fs ARQUIVO_DADOS) = Ok df ->
  carregar_dados_consolidados fs ARQUIVO_DADOS = (Some df, [])
  /\ snd (executar fs widgets) <> Interrompido
  /\ forall m, ~ In (Erro m) (fst (executar fs widgets)).
Proof.
  intros Hcarga.
  assert (Hload : carregar_dados_consolidados fs ARQUIVO_DADOS = (Some df, [])).
  { unfold carregar_dados_consolidados. now rewrite Hcarga. }
  split; [exact Hload|].
  pose proof (executar_Corrida fs widgets) as Hc.
  destruct (executar fs widgets) as [pg fim]. simpl.
  inversion Hc as [m Hnone | df' filtros ex _ Hf
                   | df' filtros ops _ Hf _ _
                   | df' filtros ops _ Hf _ _]; subst pg fim.
  - rewrite Hload in Hnone. discriminate.
  - split; [discriminate|]. intros m Hm.
    rewrite <- (app_nil_r filtros) in Hm.
    apply (pagina_In _ _ _ Hf) in Hm.
    destruct Hm as [Hm | [Hm | []]]; discriminate.
  - split; [discriminate|]. intros m Hm.
    apply (pagina_In _ _ _ Hf) in Hm.
    destruct Hm as [Hm | [Hm | [Hm | [Hm | []]]]]; discriminate.
  - split; [discriminate|]. intros m Hm.
    apply (pagina_In _ _ _ Hf) in Hm.
    destruct Hm as [Hm | [Hm | Hm]]; try discriminate.
    simpl in Hm.
    repeat (destruct Hm as [Hm | Hm]; [discriminate|]). contradiction.
Qed.

(** C9, as the code has it.  The load fails exactly on the causes the loader
    meets: the file is missing or cannot be read, the header lacks the
    [Data], [Procedimento] or [Cliente] column (as it does when the file is
    not semicolon-separated), a date cannot be parsed, the client column is
    not text.  Then the loader returns no table and one error message, and
    the run shows that message and stops: nothing else is rendered.  On any
    other file, also one that lacks the [Ano], [Mes] or [Quantidade]
    column, the loader returns its table and no message, and the run shows
    no error message and is not stopped. *)
Theorem C9_falha_de_carga (fs : SistemaArquivos) (widgets : Opcoes -> Selecao) :
  (carga_falha (fs ARQUIVO_DADOS) = true ->
   exists m,
     carregar_dados_consolidados fs ARQUIVO_DADOS = (None, [m])
     /\ executar fs widgets = ([Erro m], Interrompido))
  /\ (carga_falha (fs ARQUIVO_DADOS) = false ->
      exists df,
        carregar_dados_consolidados fs ARQUIVO_DADOS = (Some df, [])
        /\ snd (executar fs widgets) <> Interrompido
        /\ forall m, ~ In (Erro m) (fst (executar fs widgets))).
Proof.
  split.
  - intros Hf. apply carga_falha_sse in Hf. destruct Hf as [e He].
    unfold executar, dashboard, seguir, carregar, carregar_dados_consolidados.
    rewrite He.
    destruct e; eexists; split; reflexivity.
  - intros Hf.
    destruct (carregar_corpo (fs ARQUIVO_DADOS)) as [df | e] eqn:Hcarga.
    + exists df. now apply carregado_sem_erro.
    + assert (Hv : carga_falha (fs ARQUIVO_DADOS) = true)
        by (apply carga_falha_sse; eauto).
      congruence.
Qed.

Lemma C9_falha_de_carga_witness :
  exists m,
    carregar_dados_consolidados (fun _ => NaoEncontrado) ARQUIVO_DADOS
    = (None, [m])
    /\ executar (fun _ => NaoEncontrado) selecao_padrao
       = ([Erro m], Interrompido).
Proof.
  apply (proj1 (C9_falha_de_carga (fun _ => NaoEncontrado) selecao_padrao)).
  reflexivity.
Defined.

(** C9 as stated fails on a file that lacks an expected column the loader
    does not read.  Without [Quantidade] the loader returns the table and no
    message; with a selection that matches no row the run completes with
    the warning, and with the default selection it ends on the uncaught
    [KeyError] of line 91 after the filters.  Without [Ano] the loader
    returns the table as well, and the run ends on the [KeyError] of
    line 46.  In none of these is an error message shown or the run
    stopped by [st.stop()]. *)
Lemma C9_falha_contraexemplo :
  carregar_dados_consolidados fs_sem_quantidade ARQUIVO_DADOS
  = (Some {| colunas := cabecalho_sem_quantidade; linhas := tabela_exemplo |},
     [])
  /\ executar fs_sem_quantidade (fun _ => sel_2024_fev)
     = (Titulo :: filtros_exemplo ++ [Aviso; Rodape], Completo)
  /\ executar fs_sem_quantidade selecao_padrao
     = (Titulo :: filtros_exemplo, Falha (KeyError "Quantidade"))
  /\ fst (carregar_dados_consolidados fs_sem_ano ARQUIVO_DADOS)
     = Some {| colunas := ["Data"; "Mes"; "Cliente"; "Procedimento";
                           "Quantidade"];
               linhas := tabela_exemplo |}
  /\ executar fs_sem_ano selecao_padrao = ([Titulo], Falha (KeyError "Ano")).
Proof. repeat split. Qed.

(* ================================================================= *)
(** ** The summary on whole runs *)


